(** * bundler-tools: the Compiler orchestrator of packages/bundler

    A shallow embedding of [packages/bundler/src/lib/compiler.ts]:
    option normalisation, the universal-module wrapper text
    ([getRequire], [getFooter]), the plugin array handed to the engine,
    the [Compiler] class with its [build] method and watch callback, and
    the object merge [__cp] that the footer text runs at load time.

    Conventions.  A JavaScript call that may raise returns a
    [Completion]; stateful code lives in the monad [M], whose state is
    the [Compiler] instance and the store behind the filesystem
    adapter, and whose runs list the calls made to the outside (engine,
    adapter, hooks) in order.  An [async] method is run to its end in
    one step.  The bundling engine, the hooks and the adapter are
    collaborators: their answers are taken from an [Env] or from the
    options. *)

From Stdlib Require Import String Ascii List ZArith Bool Lia.
From stdpp Require Import base option list gmap strings.
Import ListNotations.
Open Scope string_scope.
Open Scope list_scope.

(** ** Completions *)

Definition Error := string.

Inductive Completion (A : Type) : Type :=
| Normal (a : A)
| Throw (e : Error).
Arguments Normal {A} a.
Arguments Throw {A} e.

(** [a ?? b] on a possibly-undefined value. *)
Definition nullish {A} (a : option A) (b : A) : A :=
  match a with
  | Some v => v
  | None => b
  end.

(** ** The host's [path] module and [JSON.stringify]

    Node's library, used by the source through [path.isAbsolute],
    [path.join], [path.dirname] and [JSON.stringify]; the development
    is generic in it.  [posix_path] below is the POSIX flavour. *)

Class Host := {
  path_isAbsolute : string -> bool;
  path_join : list string -> string;
  path_dirname : string -> string;
  JSON_stringify_string : string -> string
}.

Definition JSON_stringify_bool (b : bool) : string :=
  if b then "true" else "false".

Definition slash : ascii := "/"%char.

Fixpoint split_slash (s : string) : list string :=
  match s with
  | EmptyString => [EmptyString]
  | String c s' =>
      if Ascii.eqb c slash then EmptyString :: split_slash s'
      else match split_slash s' with
           | seg :: segs => String c seg :: segs
           | [] => [String c EmptyString]
           end
  end.

(** [normalizeString]: drops empty and [.] segments, resolves [..]
    against the segment before it. *)
Fixpoint normalize_segments (allowAboveRoot : bool) (segs acc : list string)
  : list string :=
  match segs with
  | [] => rev acc
  | seg :: segs' =>
      if String.eqb seg "" || String.eqb seg "." then
        normalize_segments allowAboveRoot segs' acc
      else if String.eqb seg ".." then
        match acc with
        | top :: acc' =>
            if String.eqb top ".."
            then normalize_segments allowAboveRoot segs' (seg :: acc)
            else normalize_segments allowAboveRoot segs' acc'
        | [] =>
            if allowAboveRoot
            then normalize_segments allowAboveRoot segs' [seg]
            else normalize_segments allowAboveRoot segs' []
        end
      else normalize_segments allowAboveRoot segs' (seg :: acc)
  end.

Definition starts_with_slash (s : string) : bool :=
  match s with
  | String c _ => Ascii.eqb c slash
  | EmptyString => false
  end.

Fixpoint ends_with_slash (s : string) : bool :=
  match s with
  | EmptyString => false
  | String c EmptyString => Ascii.eqb c slash
  | String _ s' => ends_with_slash s'
  end.

Definition posix_normalize (p : string) : string :=
  if String.eqb p "" then "." else
  let isAbsolute := starts_with_slash p in
  let trailing := ends_with_slash p in
  let body := String.concat "/"
                (normalize_segments (negb isAbsolute) (split_slash p) []) in
  if String.eqb body "" then
    (if isAbsolute then "/" else if trailing then "./" else ".")
  else
    let body' := if trailing then body +:+ "/" else body in
    if isAbsolute then "/" +:+ body' else body'.

Definition posix_join (parts : list string) : string :=
  let joined :=
    String.concat "/" (filter (fun s => negb (String.eqb s "")) parts) in
  if String.eqb joined "" then "." else posix_normalize joined.

(** [path.dirname]: the text before the last separator that is followed
    by a non-separator, scanning from the right and never looking at
    index 0.  [dirname_scan] returns the index of that separator. *)
Fixpoint dirname_scan (rev_tail : list ascii) (i : nat) (matchedSlash : bool)
  : option nat :=
  match rev_tail with
  | [] => None
  | c :: rest =>
      if Ascii.eqb c slash then
        if matchedSlash then dirname_scan rest (pred i) matchedSlash
        else Some i
      else dirname_scan rest (pred i) false
  end.

Definition posix_dirname (p : string) : string :=
  match p with
  | EmptyString => "."
  | String c0 tail =>
      let hasRoot := Ascii.eqb c0 slash in
      match dirname_scan (rev (list_ascii_of_string tail))
                         (String.length tail) true with
      | None => if hasRoot then "/" else "."
      | Some e =>
          if hasRoot && Nat.eqb e 1 then "//" else String.substring 0 e p
      end
  end.

Definition posix_path (stringify : string -> string) : Host := {|
  path_isAbsolute := starts_with_slash;
  path_join := posix_join;
  path_dirname := posix_dirname;
  JSON_stringify_string := stringify
|}.

(** ** Wrapper codegen: [getRequire] and [getFooter] *)

Definition dq : string := String (ascii_of_nat 34) EmptyString.

(** The template literal [`'${x}'`]. *)
Definition quote_name (x : string) : string := "'" +:+ x +:+ "'".

Definition getRequire (external : list string) : string :=
  let amdLoader := "define" in
  let defineDeps := String.concat ", " (map quote_name external) in
  "
(function (g, f) {
  const requireFunc = (dep) => {
    console.log(dep, window[dep])
    return window[dep];
  }
  var hasExports = typeof exports === 'object';
  if (typeof " +:+
  amdLoader +:+
  " === " +:+
  dq +:+
  "function" +:+
  dq +:+
  " && " +:+
  amdLoader +:+
  ".amd) {
    const defineDepsList = [" +:+
  defineDeps +:+
  "];
    " +:+
  amdLoader +:+
  "(" +:+
  defineDeps +:+
  ", function() {
      const args = Array.from(arguments);
      f((dep) => {
        const index = defineDepsList.indexOf(dep);
        return args[index];
      });
    });
  } else if (typeof module === " +:+
  dq +:+
  "object" +:+
  dq +:+
  " && module.exports) {
    module.exports = f((dep) => require(dep));
  } else {
    var m = f((dep) =>  window[dep]);
    var root = hasExports ? exports : g;
    for(var i in m) root[i] = m[i];
  }}(typeof self !== 'undefined' ? self : this, (require) => {
var exports = {};
var module = { exports };
  ".

Definition getFooter (moduleName : string) : string :=
  "
module.exports[" +:+
  dq +:+
  moduleName +:+
  dq +:+
  "] = " +:+
  moduleName +:+
  ";
if (typeof module.exports == " +:+
  dq +:+
  "object" +:+
  dq +:+
  " && typeof exports == " +:+
  dq +:+
  "object" +:+
  dq +:+
  ") {
  var __cp = (to, from, except, desc) => {
    if ((from && typeof from === " +:+
  dq +:+
  "object" +:+
  dq +:+
  ") || typeof from === " +:+
  dq +:+
  "function" +:+
  dq +:+
  ") {
      for (let key of Object.getOwnPropertyNames(from)) {
        if (!Object.prototype.hasOwnProperty.call(to, key) && key !== except)
        Object.defineProperty(to, key, {
          get: () => from[key],
          enumerable: !(desc = Object.getOwnPropertyDescriptor(from, key)) || desc.enumerable,
        });
      }
    }
    return to;
  };
  module.exports = __cp(module.exports, exports);
}
return module.exports;
}))".

(** *** Cutting the wrapper text

    [quoted_texts] cuts the text that follows
    [const defineDepsList = \[] at the single quotes and returns the
    pieces between them, character for character.  It is a left
    inverse of the interpolation for names without a single quote and
    nothing more: what a JavaScript reader makes of the same text is
    [definer_list] further down. *)

Fixpoint strip_prefix (m s : string) : option string :=
  match m, s with
  | EmptyString, _ => Some s
  | String a m', String b s' =>
      if Ascii.eqb a b then strip_prefix m' s' else None
  | String _ _, EmptyString => None
  end.

Fixpoint after_marker (m s : string) : option string :=
  match strip_prefix m s with
  | Some r => Some r
  | None =>
      match s with
      | EmptyString => None
      | String _ s' => after_marker m s'
      end
  end.

Definition single_quote : ascii := "'"%char.

Fixpoint text_until_quote (s : string) : option (string * string) :=
  match s with
  | EmptyString => None
  | String c s' =>
      if Ascii.eqb c single_quote then Some (EmptyString, s')
      else match text_until_quote s' with
           | Some (n, r) => Some (String c n, r)
           | None => None
           end
  end.

Fixpoint quoted_texts_from (fuel : nat) (s : string) : list string :=
  match fuel with
  | O => []
  | S fuel' =>
      match s with
      | String c s' =>
          if Ascii.eqb c single_quote then
            match text_until_quote s' with
            | Some (n, r) =>
                n :: match strip_prefix ", " r with
                     | Some r' => quoted_texts_from fuel' r'
                     | None => []
                     end
            | None => []
            end
          else []
      | EmptyString => []
      end
  end.

Definition quoted_texts_after (marker text : string) : list string :=
  match after_marker marker text with
  | Some r => quoted_texts_from (String.length r) r
  | None => []
  end.

Definition quoted_texts (banner : string) : list string :=
  quoted_texts_after "const defineDepsList = [" banner.

Definition has_quote (s : string) : bool :=
  existsb (fun c => Ascii.eqb c single_quote) (list_ascii_of_string s).

(** ** Collaborators: engine results, adapter, hooks, plugins *)

Record OutputFile := { path : string; text : string }.

(** A handle returned by the engine.  [handle] tells handles apart,
    [outputFiles] and [rebuild] are the two optional members the
    orchestrator reads; calling [rebuild] is answered by the [Env]. *)
Record BuildResult := {
  handle : nat;
  outputFiles : option (list OutputFile);
  rebuild : bool
}.

(** The filesystem adapter ([options.fileSystem]) over a store [S]. *)
Record FileSystem (S : Type) := {
  existsSync : string -> S -> bool;
  mkdirSync : string -> S -> Completion S;
  writeFileSync : string -> string -> S -> Completion S
}.
Arguments existsSync {S} _ _ _.
Arguments mkdirSync {S} _ _ _.
Arguments writeFileSync {S} _ _ _.

Record Hooks := {
  start : option (unit -> Completion unit);
  done : option (option BuildResult -> Completion unit)
}.

(** A plugin written against the proxy's interface; only its identity
    matters to the orchestrator. *)
Record UserPlugin := { plugin_name : string }.

Definition watchPlugin : UserPlugin := {| plugin_name := "watch" |}.

(** The engine plugins the orchestrator can put in the pipeline; the
    orchestrator instance that some of them receive is left out. *)
Inductive Plugin :=
| pluginNodePolyfill
| pluginGlobalExternal
| pluginEntry
| rollupProxyPlugin (plugins : list UserPlugin)
| pluginBareModule
| pluginHttp
| pluginUnpkg
| pluginMemfs.

(** [cond && plugin()]: [false] when the condition fails. *)
Definition and_plugin (cond : bool) (p : Plugin) : option Plugin :=
  if cond then Some p else None.

(** [.filter(Boolean)] on an array of plugins and [false]s. *)
Fixpoint filter_Boolean (l : list (option Plugin)) : list Plugin :=
  match l with
  | [] => []
  | Some p :: l' => p :: filter_Boolean l'
  | None :: l' => filter_Boolean l'
  end.

(** ** Options *)

(** [CompilerOptions] as the caller passes them. *)
Record CompilerOptions (S : Type) := {
  co_input : string;
  co_output : string;
  co_fileSystem : option (FileSystem S);
  co_unpkg : option bool;
  co_watch : option bool;
  co_plugins : option (list UserPlugin);
  co_hooks : option Hooks;
  co_cwd : option string;
  co_external : option (list string);
  co_platform : option string;
  co_format : option string;
  co_memfs : option bool;
  co_globalName : option string;
  co_http : option bool
}.
Arguments co_input {S} _.
Arguments co_output {S} _.
Arguments co_fileSystem {S} _.
Arguments co_unpkg {S} _.
Arguments co_watch {S} _.
Arguments co_plugins {S} _.
Arguments co_hooks {S} _.
Arguments co_cwd {S} _.
Arguments co_external {S} _.
Arguments co_platform {S} _.
Arguments co_format {S} _.
Arguments co_memfs {S} _.
Arguments co_globalName {S} _.
Arguments co_http {S} _.

(** The object stored in [this.options].  [build] still guards
    [hooks], [external] and [globalName] with [?.] and [??], so these
    three stay possibly-undefined here; [normalizeOptions] fills them. *)
Record Options (S : Type) := {
  input : string;
  output : string;
  fileSystem : FileSystem S;
  unpkg : bool;
  watch : bool;
  plugins : list UserPlugin;
  hooks : option Hooks;
  cwd : string;
  external : option (list string);
  platform : string;
  format : string;
  memfs : bool;
  globalName : option string;
  http : bool
}.
Arguments input {S} _.
Arguments output {S} _.
Arguments fileSystem {S} _.
Arguments unpkg {S} _.
Arguments watch {S} _.
Arguments plugins {S} _.
Arguments hooks {S} _.
Arguments cwd {S} _.
Arguments external {S} _.
Arguments platform {S} _.
Arguments format {S} _.
Arguments memfs {S} _.
Arguments globalName {S} _.
Arguments http {S} _.

(** The engine's [BuildOptions]; a member is [None] when the object
    does not have it. *)
Record BuildOptions := {
  bo_entryPoints : option (list string);
  bo_incremental : option bool;
  bo_logLevel : option string;
  bo_write : option bool;
  bo_outfile : option string;
  bo_format : option string;
  bo_minify : option bool;
  bo_globalName : option string;
  bo_define : option (list (string * string));
  bo_external : option (list string);
  bo_platform : option string;
  bo_banner : option string;
  bo_footer : option string;
  bo_inject : option (list string);
  bo_plugins : option (list Plugin);
  bo_bundle : option bool
}.

Definition defaultEsbuildOptions : BuildOptions := {|
  bo_entryPoints := None;
  bo_incremental := None;
  bo_logLevel := Some "error";
  bo_write := None;
  bo_outfile := None;
  bo_format := None;
  bo_minify := None;
  bo_globalName := None;
  bo_define := None;
  bo_external := Some ["fsevents"];
  bo_platform := Some "node";
  bo_banner := None;
  bo_footer := None;
  bo_inject := None;
  bo_plugins := Some [];
  bo_bundle := Some true
|}.

(** One member of [{...a, ...b}]: [b]'s when [b] has it. *)
Definition spread {A} (a b : option A) : option A :=
  match b with
  | Some v => Some v
  | None => a
  end.

Definition normalizeEsbuildOptions (options : BuildOptions) : BuildOptions :=
  let d := defaultEsbuildOptions in
  {| bo_entryPoints := spread (bo_entryPoints d) (bo_entryPoints options);
     bo_incremental := spread (bo_incremental d) (bo_incremental options);
     bo_logLevel := spread (bo_logLevel d) (bo_logLevel options);
     bo_write := spread (bo_write d) (bo_write options);
     bo_outfile := spread (bo_outfile d) (bo_outfile options);
     bo_format := spread (bo_format d) (bo_format options);
     bo_minify := spread (bo_minify d) (bo_minify options);
     bo_globalName := spread (bo_globalName d) (bo_globalName options);
     bo_define := spread (bo_define d) (bo_define options);
     bo_external := spread (bo_external d) (bo_external options);
     bo_platform := spread (bo_platform d) (bo_platform options);
     bo_banner := spread (bo_banner d) (bo_banner options);
     bo_footer := spread (bo_footer d) (bo_footer options);
     bo_inject := spread (bo_inject d) (bo_inject options);
     bo_plugins := spread (bo_plugins d) (bo_plugins options);
     bo_bundle := spread (bo_bundle d) (bo_bundle options) |}.

(** What the process and the engine answer at one moment: the engine's
    reply to a full build and to a rebuild of a handle, the working
    directory, [process.env.NODE_ENV], [__dirname], and the host's
    [fs] module.  The engine and the hooks are answers only: what the
    engine, its plugins or a hook do on their own to files or to the
    watcher while they run is not represented, and the [store] of a
    world is the adapter's store as the orchestrator's own calls leave
    it. *)
Record Env (S : Type) := {
  engine_build : BuildOptions -> Completion BuildResult;
  engine_rebuild : BuildResult -> Completion BuildResult;
  process_cwd : string;
  NODE_ENV : option string;
  __dirname : string;
  fs : FileSystem S
}.
Arguments engine_build {S} _ _.
Arguments engine_rebuild {S} _ _.
Arguments process_cwd {S} _.
Arguments NODE_ENV {S} _.
Arguments __dirname {S} _.
Arguments fs {S} _.

Definition ensureAbsolutePath `{Host} (filepath cwd : string) : string :=
  if path_isAbsolute filepath then filepath else path_join [cwd; filepath].

Definition normalizeOptions `{Host} {S} (env : Env S)
    (options : CompilerOptions S) : Options S :=
  let cwd := nullish (co_cwd options) (process_cwd env) in
  {| input := ensureAbsolutePath (co_input options) cwd;
     output := ensureAbsolutePath (co_output options) cwd;
     fileSystem := nullish (co_fileSystem options) (fs env);
     unpkg := nullish (co_unpkg options) false;
     watch := nullish (co_watch options) false;
     plugins := nullish (co_plugins options) [];
     hooks := Some (nullish (co_hooks options) {| start := None; done := None |});
     cwd := cwd;
     external := Some (nullish (co_external options) []);
     platform := nullish (co_platform options) "node";
     format := nullish (co_format options) "iife";
     memfs := nullish (co_memfs options) false;
     globalName := Some (nullish (co_globalName options) "bundler");
     http := nullish (co_http options) false |}.

(** ** The [Compiler] instance and the monad of its methods *)

(** The function returned by [debounce]: its pending timer, if any,
    as the time at which it runs out. *)
Record Debounced := { timeout : option Z }.

Record FSWatcher := {
  watched : list string;
  on_all : Debounced
}.

Record Compiler (S : Type) := {
  options : Options S;
  result : option BuildResult;
  watcher : option FSWatcher;
  firstBuildPass : bool
}.
Arguments options {S} _.
Arguments result {S} _.
Arguments watcher {S} _.
Arguments firstBuildPass {S} _.

(** Calls that leave the orchestrator, in the order they are made. *)
Inductive Event :=
| CallHookStart
| CallEngineBuild (request : BuildOptions)
| CallRebuild (h : BuildResult)
| CallExistsSync (p : string)
| CallMkdirSync (p : string)
| CallWriteFileSync (p : string) (data : string)
| CallHookDone (r : option BuildResult)
| CallWatcherAdd (id : string)
| UnhandledRejection (e : Error).

(** What a method can change: the instance and the adapter's store. *)
Record World (S : Type) := {
  this : Compiler S;
  store : S
}.
Arguments this {S} _.
Arguments store {S} _.

(** One run of a method: how it completed, the world it left, and the
    outside calls it made. *)
Record Run (S A : Type) := {
  completion : Completion A;
  world : World S;
  calls : list Event
}.
Arguments completion {S A} _.
Arguments world {S A} _.
Arguments calls {S A} _.

Definition M (S A : Type) : Type := World S -> Run S A.

Definition ret {S A} (a : A) : M S A :=
  fun w => {| completion := Normal a; world := w; calls := [] |}.

Definition bind {S A B} (m : M S A) (k : A -> M S B) : M S B :=
  fun w =>
    let r := m w in
    match completion r with
    | Normal a =>
        let r' := k a (world r) in
        {| completion := completion r'; world := world r';
           calls := calls r ++ calls r' |}
    | Throw e =>
        {| completion := Throw e; world := world r; calls := calls r |}
    end.

#[global] Instance M_ret {S} : MRet (M S) := fun A => @ret S A.
#[global] Instance M_bind {S} : MBind (M S) := fun A B k m => @bind S A B m k.

(** [try { body } finally { finalizer }]. *)
Definition try_finally {S A} (body : M S A) (finalizer : M S unit) : M S A :=
  fun w =>
    let r := body w in
    let r' := finalizer (world r) in
    {| completion := match completion r' with
                     | Normal _ => completion r
                     | Throw e => Throw e
                     end;
       world := world r';
       calls := calls r ++ calls r' |}.

Definition get_this {S} : M S (Compiler S) :=
  fun w => {| completion := Normal (this w); world := w; calls := [] |}.

Definition emit {S} (ev : Event) : M S unit :=
  fun w => {| completion := Normal tt; world := w; calls := [ev] |}.

(** An outside call whose completion is known: recorded, then taken. *)
Definition outside {S A} (ev : Event) (c : Completion A) : M S A :=
  fun w => {| completion := c; world := w; calls := [ev] |}.

Definition set_this {S} (c : Compiler S) : M S unit :=
  fun w => {| completion := Normal tt;
              world := {| this := c; store := store w |};
              calls := [] |}.

Definition set_result {S} (r : option BuildResult) : M S unit :=
  c ← get_this;
  set_this {| options := options c; result := r;
              watcher := watcher c; firstBuildPass := firstBuildPass c |}.

Definition set_firstBuildPass {S} (b : bool) : M S unit :=
  c ← get_this;
  set_this {| options := options c; result := result c;
              watcher := watcher c; firstBuildPass := b |}.

Definition set_watcher {S} (fw : option FSWatcher) : M S unit :=
  c ← get_this;
  set_this {| options := options c; result := result c;
              watcher := fw; firstBuildPass := firstBuildPass c |}.

(** Adapter calls act on the store. *)
Definition call_existsSync {S} (a : FileSystem S) (p : string) : M S bool :=
  fun w => {| completion := Normal (existsSync a p (store w));
              world := w;
              calls := [CallExistsSync p] |}.

Definition adapter_update {S} (ev : Event) (op : S -> Completion S)
  : M S unit :=
  fun w =>
    match op (store w) with
    | Normal s' =>
        {| completion := Normal tt;
           world := {| this := this w; store := s' |};
           calls := [ev] |}
    | Throw e =>
        {| completion := Throw e; world := w; calls := [ev] |}
    end.

Definition call_mkdirSync {S} (a : FileSystem S) (p : string) : M S unit :=
  adapter_update (CallMkdirSync p) (mkdirSync a p).

Definition call_writeFileSync {S} (a : FileSystem S) (p data : string)
  : M S unit :=
  adapter_update (CallWriteFileSync p data) (writeFileSync a p data).

Fixpoint forEach {S A} (l : list A) (f : A -> M S unit) : M S unit :=
  match l with
  | [] => ret tt
  | x :: l' => bind (f x) (fun _ => forEach l' f)
  end.

(** ** [new Compiler(options)], [addWatchFile] and [build] *)

Definition new_Compiler `{Host} {S} (env : Env S)
    (options : CompilerOptions S) : Compiler S :=
  let o := normalizeOptions env options in
  {| options := o;
     result := None;
     watcher := if watch o
                then Some {| watched := []; on_all := {| timeout := None |} |}
                else None;
     firstBuildPass := false |}.

Definition addWatchFile {S} (id : string) : M S unit :=
  c ← get_this;
  match watcher c with
  | Some fw =>
      emit (CallWatcherAdd id);;
      set_watcher (Some {| watched := watched fw ++ [id];
                           on_all := on_all fw |})
  | None => ret tt
  end.

(** [this.options.hooks?.start?.()] *)
Definition call_start {S} : M S unit :=
  c ← get_this;
  match hooks (options c) with
  | Some h =>
      match start h with
      | Some f => outside CallHookStart (f tt)
      | None => ret tt
      end
  | None => ret tt
  end.

(** [this.options?.hooks?.done?.(this.result!)] *)
Definition call_done {S} : M S unit :=
  c ← get_this;
  match hooks (options c) with
  | Some h =>
      match done h with
      | Some f => outside (CallHookDone (result c)) (f (result c))
      | None => ret tt
      end
  | None => ret tt
  end.

(** [await this.result?.rebuild?.()] on an existing handle. *)
Definition await_rebuild {S} (env : Env S) (h : BuildResult)
  : M S (option BuildResult) :=
  if rebuild h then
    r ← outside (CallRebuild h) (engine_rebuild env h);
    ret (Some r)
  else ret None.

(** The plugin array of the full build. *)
Definition build_plugins {S} (o : Options S) : list Plugin :=
  let plugins := watchPlugin :: plugins o in
  filter_Boolean
    [ and_plugin (String.eqb (platform o) "browser") pluginNodePolyfill;
      and_plugin (String.eqb (platform o) "browser") pluginGlobalExternal;
      Some pluginEntry;
      Some (rollupProxyPlugin plugins);
      Some pluginBareModule;
      and_plugin (http o) pluginHttp;
      and_plugin (unpkg o) pluginUnpkg;
      and_plugin (memfs o) pluginMemfs ].

(** [process.env.NODE_ENV || "production"] *)
Definition node_env_or_production {S} (env : Env S) : string :=
  match NODE_ENV env with
  | Some v => if String.eqb v "" then "production" else v
  | None => "production"
  end.

(** The object literal passed to [normalizeEsbuildOptions]. *)
Definition build_request `{Host} {S} (env : Env S) (o : Options S)
  : BuildOptions :=
  let external :=
    nullish (external o)
      (if String.eqb (platform o) "node"
       then ["esbuild"; "fsevents"]
       else ["esbuild"; "fsevents"; "chokidar"; "yargs"]) in
  let globalName := nullish (globalName o) "bundler" in
  {| bo_entryPoints := Some ["<stdin>"];
     bo_incremental := Some true;
     bo_logLevel := Some "error";
     bo_write := Some (negb (memfs o));
     bo_outfile := Some (output o);
     bo_format := Some (format o);
     bo_minify := Some true;
     bo_globalName := Some globalName;
     bo_define :=
       Some [ ("__NODE__",
               JSON_stringify_bool (String.eqb (platform o) "node"));
              ("process.env.NODE_ENV",
               JSON_stringify_string (node_env_or_production env)) ];
     bo_external := Some external;
     bo_platform := Some (platform o);
     bo_banner :=
       Some (if String.eqb (platform o) "browser"
             then "var global = globalThis;"
             else getRequire external);
     bo_footer :=
       Some (if String.eqb (platform o) "browser"
             then ""
             else getFooter globalName);
     bo_inject :=
       Some (if String.eqb (platform o) "node"
             then []
             else [path_join [__dirname env; "../shim/node.js"]]);
     bo_plugins := Some (build_plugins o);
     bo_bundle := None |}.

(** The callback of [outputFiles.forEach]. *)
Definition write_output `{Host} {S} (x : OutputFile) : M S unit :=
  context ← get_this;
  e ← call_existsSync (fileSystem (options context)) (path_dirname (path x));
  (if negb e
   then call_mkdirSync (fileSystem (options context)) (path_dirname (path x))
   else ret tt);;
  call_writeFileSync (fileSystem (options context)) (path x) (text x).

Definition write_outputs `{Host} {S} : M S unit :=
  context ← get_this;
  if memfs (options context) then
    match result context with
    | Some r =>
        match outputFiles r with
        | Some files => forEach files write_output
        | None => ret tt
        end
    | None => ret tt
    end
  else ret tt.

(** [await build(request)] *)
Definition await_build {S} (env : Env S) (request : BuildOptions)
  : M S BuildResult :=
  outside (CallEngineBuild request) (engine_build env request).

(** The [if (this.result) ... else ...] statement. *)
Definition build_or_rebuild `{Host} {S} (env : Env S) : M S unit :=
  context ← get_this;
  match result context with
  | Some h =>
      r ← await_rebuild env h;
      set_result r
  | None =>
      r ← await_build env
            (normalizeEsbuildOptions (build_request env (options context)));
      set_result (Some r)
  end.

(** The body of the [try] block. *)
Definition build_try `{Host} {S} (env : Env S) : M S unit :=
  build_or_rebuild env;;
  write_outputs;;
  call_done.

Definition build `{Host} {S} (watch : bool) (env : Env S) : M S unit :=
  call_start;;
  try_finally (build_try env) (set_firstBuildPass true).

(** ** The watch callback *)

(** A promise nobody awaits: a rejection does not reach the caller. *)
Definition detached {S} (m : M S unit) : M S unit :=
  fun w =>
    let r := m w in
    match completion r with
    | Normal _ =>
        {| completion := Normal tt; world := world r; calls := calls r |}
    | Throw e =>
        {| completion := Normal tt; world := world r;
           calls := calls r ++ [UnhandledRejection e] |}
    end.

(** The function handed to [debounce]; the result tells whether it
    called [build]. *)
Definition watch_callback `{Host} {S} (env : Env S) : M S bool :=
  c ← get_this;
  if firstBuildPass c then
    detached (build false env);;
    ret true
  else ret false.

(** Modelled from the spec: the [debounce] package, called as
    [debounce(fn, 500, true)], is not among the sources.  Spec 4.3 and
    9: the leading event of a window triggers the call immediately,
    trailing events within the window are suppressed, and an event that
    arrives while the timer is pending does not reset the timer.  The
    result says whether [fn] is called now. *)
Definition debounce (wait : Z) (immediate : bool) (now : Z) (d : Debounced)
  : bool * Debounced :=
  match timeout d with
  | Some expiry =>
      if (now <? expiry)%Z then (false, d)
      else (immediate, {| timeout := Some (now + wait)%Z |})
  | None => (immediate, {| timeout := Some (now + wait)%Z |})
  end.

(** One ["all"] event of the watcher at time [now], for any debouncing
    [policy]; returns whether [build] was called. *)
Definition watcher_event `{Host} {S}
    (policy : Z -> Debounced -> bool * Debounced)
    (now : Z) (env : Env S) : M S bool :=
  c ← get_this;
  match watcher c with
  | Some fw =>
      let '(callNow, d) := policy now (on_all fw) in
      set_watcher (Some {| watched := watched fw; on_all := d |});;
      if callNow then watch_callback env else ret false
  | None => ret false
  end.

(** A run of events, each with the time it arrives and with what the
    process and the engine answer at that time; returns the number of
    [build] calls made. *)
Fixpoint watcher_events `{Host} {S}
    (policy : Z -> Debounced -> bool * Debounced)
    (events : list (Z * Env S)) : M S nat :=
  match events with
  | [] => ret 0
  | (now, env) :: events' =>
      bind (watcher_event policy now env) (fun b : bool =>
      bind (watcher_events policy events') (fun n : nat =>
      ret ((if b then 1 else 0) + n)))
  end.

(** The debouncing the constructor installs. *)
Definition installed_debounce : Z -> Debounced -> bool * Debounced :=
  debounce 500 true.

(** ** The engine's resolution over the pipeline *)

Inductive Resolution :=
| Resolved (resolvedPath namespace : string)
| Deferred.

(** Modelled from the spec: the engine's specifier resolution and the
    plugins' resolve hooks are not among the sources.  Spec 4.2 and 9:
    each capability answers [Resolved] or [Deferred]; the engine
    iterates the capabilities in pipeline order until one answers
    [Resolved].  The result names the capability that answered. *)
Fixpoint resolve_chain (resolveSpecifier : Plugin -> string -> Resolution)
    (pipeline : list Plugin) (specifier : string)
  : option (Plugin * Resolution) :=
  match pipeline with
  | [] => None
  | p :: rest =>
      match resolveSpecifier p specifier with
      | Resolved rp ns => Some (p, Resolved rp ns)
      | Deferred => resolve_chain resolveSpecifier rest specifier
      end
  end.

(** ** An in-memory adapter

    A store of directories and files with the behaviour of Node's [fs]
    for the three calls the orchestrator makes: [mkdirSync] without the
    recursive option needs the parent to exist and the path to be
    free; [writeFileSync] needs the parent to exist.  Used to run the
    orchestrator on concrete inputs. *)

Record MemStore := {
  dirs : gset string;
  files : gmap string string
}.

Definition mem_exists (p : string) (s : MemStore) : bool :=
  bool_decide (p ∈ dirs s) || bool_decide (is_Some (files s !! p)).

Definition mem_fs `{Host} : FileSystem MemStore := {|
  existsSync := mem_exists;
  mkdirSync := fun (p : string) (s : MemStore) =>
    if mem_exists p s then Throw "EEXIST"
    else if bool_decide (path_dirname p ∈ dirs s)
         then Normal {| dirs := {[p]} ∪ dirs s; files := files s |}
         else Throw "ENOENT";
  writeFileSync := fun (p data : string) (s : MemStore) =>
    if bool_decide (p ∈ dirs s) then Throw "EISDIR"
    else if bool_decide (path_dirname p ∈ dirs s)
         then Normal {| dirs := dirs s; files := <[p := data]> (files s) |}
         else Throw "ENOENT"
|}.

(** ** The merge in the footer text: [__cp]

    The footer is text for the engine; what it does when the bundle is
    loaded is the function [__cp] below, run on a heap of ordinary
    JavaScript objects with string-keyed own properties. *)

Definition loc := nat.

Inductive Value :=
| VUndefined
| VNull
| VBoolean (b : bool)
| VNumber (n : Z)
| VString (s : string)
| VObject (l : loc)
| VFunction (l : loc).

(** A getter is either the arrow function [() => from\[key\]] that
    [__cp] creates, or one written by the bundled code. *)
Inductive Getter :=
| ForwardTo (from : loc) (key : string)
| UserGetter (id : nat).

Inductive Slot :=
| DataSlot (value : Value) (writable : bool)
| AccessorSlot (get : option Getter).

Record Property := {
  slot : Slot;
  enumerable : bool;
  configurable : bool
}.

(** Own properties are kept in creation order. *)
Record JSObject := {
  own : list (string * Property);
  extensible : bool;
  prototype : option loc
}.

Abbreviation Heap := (gmap loc JSObject).

Definition typeof (v : Value) : string :=
  match v with
  | VUndefined => "undefined"
  | VNull => "object"
  | VBoolean _ => "boolean"
  | VNumber _ => "number"
  | VString _ => "string"
  | VObject _ => "object"
  | VFunction _ => "function"
  end.

Definition truthy (v : Value) : bool :=
  match v with
  | VUndefined | VNull => false
  | VBoolean b => b
  | VNumber n => negb (n =? 0)%Z
  | VString s => negb (String.eqb s "")
  | VObject _ | VFunction _ => true
  end.

Fixpoint lookup_own (key : string) (ps : list (string * Property))
  : option Property :=
  match ps with
  | [] => None
  | (k, p) :: ps' => if String.eqb k key then Some p else lookup_own key ps'
  end.

Fixpoint replace_own (key : string) (p : Property)
    (ps : list (string * Property)) : list (string * Property) :=
  match ps with
  | [] => []
  | (k, q) :: ps' =>
      if String.eqb k key then (k, p) :: ps'
      else (k, q) :: replace_own key p ps'
  end.

Definition is_digit (c : ascii) : bool :=
  (48 <=? nat_of_ascii c)%nat && (nat_of_ascii c <=? 57)%nat.

Fixpoint decimal_value (s : string) (acc : nat) : nat :=
  match s with
  | EmptyString => acc
  | String c s' => decimal_value s' (10 * acc + (nat_of_ascii c - 48))
  end.

(** The index a canonical numeric key denotes. *)
Definition array_index (key : string) : option nat :=
  match key with
  | EmptyString => None
  | String c rest =>
      if forallb is_digit (list_ascii_of_string key)
           && (negb (Ascii.eqb c "0"%char) || String.eqb rest "")
      then Some (decimal_value key 0)
      else None
  end.

(** [Object.prototype.hasOwnProperty.call(to, key)] *)
Definition hasOwnProperty (h : Heap) (to : Value) (key : string)
  : Completion bool :=
  match to with
  | VUndefined | VNull =>
      Throw "TypeError: Cannot convert undefined or null to object"
  | VBoolean _ | VNumber _ => Normal false
  | VString s =>
      Normal (String.eqb key "length"
              || match array_index key with
                 | Some i => (i <? String.length s)%nat
                 | None => false
                 end)
  | VObject l | VFunction l =>
      match h !! l with
      | Some o => Normal (bool_decide (is_Some (lookup_own key (own o))))
      | None => Throw "ReferenceError: no such object"
      end
  end.

(** [Object.getOwnPropertyNames(from)] for an object or function. *)
Definition getOwnPropertyNames (h : Heap) (from : loc) : list string :=
  match h !! from with
  | Some o => map fst (own o)
  | None => []
  end.

(** [!(desc = Object.getOwnPropertyDescriptor(from, key)) || desc.enumerable] *)
Definition enumerable_of (h : Heap) (from : loc) (key : string) : bool :=
  match h !! from with
  | Some o =>
      match lookup_own key (own o) with
      | Some p => enumerable p
      | None => true
      end
  | None => true
  end.

(** [Object.defineProperty(to, key, { get, enumerable })].  A new key
    needs an extensible object and becomes a non-configurable accessor
    at the end of the own properties; an existing key is redefined when
    it is configurable and keeps that attribute. *)
Definition defineProperty (h : Heap) (to : Value) (key : string)
    (get : Getter) (enum : bool) : Completion Heap :=
  match to with
  | VObject l | VFunction l =>
      match h !! l with
      | Some o =>
          match lookup_own key (own o) with
          | None =>
              if extensible o then
                Normal (<[l := {| own := own o ++
                                    [(key, {| slot := AccessorSlot (Some get);
                                              enumerable := enum;
                                              configurable := false |})];
                                  extensible := extensible o;
                                  prototype := prototype o |}]> h)
              else Throw "TypeError: object is not extensible"
          | Some p =>
              if configurable p then
                Normal (<[l := {| own := replace_own key
                                    {| slot := AccessorSlot (Some get);
                                       enumerable := enum;
                                       configurable := true |} (own o);
                                  extensible := extensible o;
                                  prototype := prototype o |}]> h)
              else Throw "TypeError: Cannot redefine property"
          end
      | None => Throw "ReferenceError: no such object"
      end
  | _ => Throw "TypeError: Object.defineProperty called on non-object"
  end.

Definition value_eqb (a b : Value) : bool :=
  match a, b with
  | VUndefined, VUndefined => true
  | VNull, VNull => true
  | VBoolean x, VBoolean y => Bool.eqb x y
  | VNumber x, VNumber y => (x =? y)%Z
  | VString x, VString y => String.eqb x y
  | VObject x, VObject y => Nat.eqb x y
  | VFunction x, VFunction y => Nat.eqb x y
  | _, _ => false
  end.

(** The body of the [for] loop over the names taken at loop entry. *)
Fixpoint cp_loop (keys : list string) (to : Value) (from : loc)
    (except : Value) (h : Heap) : Completion unit * Heap :=
  match keys with
  | [] => (Normal tt, h)
  | key :: keys' =>
      match hasOwnProperty h to key with
      | Throw e => (Throw e, h)
      | Normal present =>
          if negb present && negb (value_eqb (VString key) except) then
            match defineProperty h to key (ForwardTo from key)
                    (enumerable_of h from key) with
            | Normal h' => cp_loop keys' to from except h'
            | Throw e => (Throw e, h)
            end
          else cp_loop keys' to from except h
      end
  end.

Definition __cp (to from except : Value) (h : Heap)
  : Completion Value * Heap :=
  if (truthy from && String.eqb (typeof from) "object")
     || String.eqb (typeof from) "function"
  then
    match from with
    | VObject l | VFunction l =>
        match cp_loop (getOwnPropertyNames h l) to l except h with
        | (Normal _, h') => (Normal to, h')
        | (Throw e, h') => (Throw e, h')
        end
    | _ => (Normal to, h)
    end
  else (Normal to, h).

(** The [if] statement of the footer; the result is the new value of
    [module.exports]. *)
Definition footer_merge (module_exports exports : Value) (h : Heap)
  : Completion Value * Heap :=
  if String.eqb (typeof module_exports) "object"
     && String.eqb (typeof exports) "object"
  then __cp module_exports exports VUndefined h
  else (Normal module_exports, h).

(** Reading [o\[key\]]: own property first, then the prototype chain;
    an accessor runs its getter.  [user id h] is what the bundled
    code's getter [id] returns on heap [h].  [None]: out of fuel. *)
Fixpoint Get (fuel : nat) (user : nat -> Heap -> Completion Value)
    (h : Heap) (l : loc) (key : string) : option (Completion Value) :=
  match fuel with
  | O => None
  | Datatypes.S fuel' =>
      match h !! l with
      | None => Some (Throw "ReferenceError: no such object")
      | Some o =>
          match lookup_own key (own o) with
          | Some p =>
              match slot p with
              | DataSlot v _ => Some (Normal v)
              | AccessorSlot (Some (ForwardTo from k)) =>
                  Get fuel' user h from k
              | AccessorSlot (Some (UserGetter id)) => Some (user id h)
              | AccessorSlot None => Some (Normal VUndefined)
              end
          | None =>
              match prototype o with
              | Some p => Get fuel' user h p key
              | None => Some (Normal VUndefined)
              end
          end
      end
  end.

Definition own_property (h : Heap) (l : loc) (key : string)
  : option Property :=
  match h !! l with
  | Some o => lookup_own key (own o)
  | None => None
  end.

(** ** Reading the wrapper text as JavaScript

    The host that loads the bundle reads the names of the banner as
    string literals: a backslash starts an escape, a line break ends
    the literal with a syntax error.  The readers below follow the
    lexical grammar of ECMAScript for string literals and for lists of
    them separated by commas; escapes by [\u] and legacy octal escapes
    are not covered and reported as such. *)




















(** ** Vocabulary of the statements *)

(** The list literal [getRequire] puts in the banner. *)
Definition defineDeps (external : list string) : string :=
  String.concat ", " (map quote_name external).

Definition starts_with_quote (s : string) : bool :=
  match s with
  | String c _ => Ascii.eqb c single_quote
  | EmptyString => false
  end.

(** The text of [s] up to and including the first occurrence of [m]. *)
Fixpoint upto_marker (m s : string) : string :=
  match strip_prefix m s with
  | Some _ => m
  | None =>
      match s with
      | EmptyString => EmptyString
      | String c s' => String c (upto_marker m s')
      end
  end.

(** The three fixed parts of the banner, around the two places where
    the names go. *)
Definition banner_head : string :=
  Eval vm_compute in upto_marker "const defineDepsList = [" (getRequire []).

Definition banner_middle : string :=
  Eval vm_compute in
    match after_marker "const defineDepsList = [" (getRequire []) with
    | Some r => upto_marker "define(" r
    | None => EmptyString
    end.

Definition banner_tail : string :=
  Eval vm_compute in
    match after_marker "const defineDepsList = [" (getRequire []) with
    | Some r => nullish (after_marker "define(" r) EmptyString
    | None => EmptyString
    end.



Definition is_done_call (e : Event) : bool :=
  match e with
  | CallHookDone _ => true
  | _ => false
  end.

Definition is_adapter_call (e : Event) : bool :=
  match e with
  | CallExistsSync _ | CallMkdirSync _ | CallWriteFileSync _ _ => true
  | _ => false
  end.

Definition is_rebuild_call (e : Event) : bool :=
  match e with
  | CallRebuild _ => true
  | _ => false
  end.

Definition count_done (l : list Event) : nat :=
  length (List.filter is_done_call l).

Definition adapter_calls (l : list Event) : list Event :=
  List.filter is_adapter_call l.

(** The [start] hook is absent or returns. *)
Definition start_returns {S} (c : Compiler S) : Prop :=
  match hooks (options c) with
  | Some h =>
      match start h with
      | Some f => f tt = Normal tt
      | None => True
      end
  | None => True
  end.

(** The [done] hook the instance carries, if any. *)
Definition done_hook {S} (c : Compiler S)
  : option (option BuildResult -> Completion unit) :=
  match hooks (options c) with
  | Some h => done h
  | None => None
  end.

(** The request of a full build of instance [c]. *)
Definition full_request `{Host} {S} (env : Env S) (c : Compiler S)
  : BuildOptions :=
  normalizeEsbuildOptions (build_request env (options c)).

(** How the awaited engine expression of [build] completes on instance
    [c]: the new value of [this.result], or the error raised. *)
Definition engine_reply `{Host} {S} (env : Env S) (c : Compiler S)
  : Completion (option BuildResult) :=
  match result c with
  | Some h =>
      if rebuild h then
        match engine_rebuild env h with
        | Normal r => Normal (Some r)
        | Throw e => Throw e
        end
      else Normal None
  | None =>
      match engine_build env (full_request env c) with
      | Normal r => Normal (Some r)
      | Throw e => Throw e
      end
  end.

(** The engine call [build] makes on instance [c]. *)
Definition engine_calls `{Host} {S} (env : Env S) (c : Compiler S)
  : list Event :=
  match result c with
  | Some h => if rebuild h then [CallRebuild h] else []
  | None => [CallEngineBuild (full_request env c)]
  end.

Definition with_result {S} (r : option BuildResult) (c : Compiler S)
  : Compiler S :=
  {| options := options c; result := r;
     watcher := watcher c; firstBuildPass := firstBuildPass c |}.

Definition with_firstBuildPass {S} (b : bool) (c : Compiler S)
  : Compiler S :=
  {| options := options c; result := result c;
     watcher := watcher c; firstBuildPass := b |}.

(** The adapter calls the claim describes for a list of artifacts on
    store [s]: per artifact one [existsSync] of the parent directory,
    one [mkdirSync] of it when it is missing, one [writeFileSync]; a
    call that raises is the last one. *)
Fixpoint described_adapter_calls `{Host} {S} (a : FileSystem S)
    (files : list OutputFile) (s : S) : list Event :=
  match files with
  | [] => []
  | x :: rest =>
      let parent := path_dirname (path x) in
      if existsSync a parent s then
        CallExistsSync parent :: CallWriteFileSync (path x) (text x) ::
        match writeFileSync a (path x) (text x) s with
        | Normal s' => described_adapter_calls a rest s'
        | Throw _ => []
        end
      else
        CallExistsSync parent :: CallMkdirSync parent ::
        match mkdirSync a parent s with
        | Normal s1 =>
            CallWriteFileSync (path x) (text x) ::
            match writeFileSync a (path x) (text x) s1 with
            | Normal s' => described_adapter_calls a rest s'
            | Throw _ => []
            end
        | Throw _ => []
        end
  end.

(** The artifacts [build] writes when the engine call gave [r]. *)
Definition artifacts {S} (o : Options S) (r : option BuildResult)
  : list OutputFile :=
  if memfs o then
    match r with
    | Some b => nullish (outputFiles b) []
    | None => []
    end
  else [].

Definition timer_idle (now : Z) (d : Debounced) : bool :=
  match timeout d with
  | Some expiry => (expiry <=? now)%Z
  | None => true
  end.

(** The call of the [start] hook, when the instance has one. *)
Definition start_calls {S} (c : Compiler S) : list Event :=
  match hooks (options c) with
  | Some h =>
      match start h with
      | Some _ => [CallHookStart]
      | None => []
      end
  | None => []
  end.

(** The call of the [done] hook with [r], and how it completes. *)
Definition done_calls {S} (c : Compiler S) (r : option BuildResult)
  : list Event :=
  match done_hook c with
  | Some _ => [CallHookDone r]
  | None => []
  end.

Definition done_completion {S} (c : Compiler S) (r : option BuildResult)
  : Completion unit :=
  match done_hook c with
  | Some f => f r
  | None => Normal tt
  end.

Definition with_watcher {S} (fw : option FSWatcher) (c : Compiler S)
  : Compiler S :=
  {| options := options c; result := result c;
     watcher := fw; firstBuildPass := firstBuildPass c |}.

(** The watcher once the debounce timer has been started at [now]. *)
Definition armed (now : Z) (fw : FSWatcher) : FSWatcher :=
  {| watched := watched fw; on_all := {| timeout := Some (now + 500)%Z |} |}.

(** The accessor [__cp] defines for [key]: its getter reads
    [from\[key\]] when called. *)
Definition forwarding (from : loc) (key : string) (enum : bool) : Property :=
  {| slot := AccessorSlot (Some (ForwardTo from key));
     enumerable := enum;
     configurable := false |}.

(** ** Concrete collaborators

    A POSIX host (whose [JSON.stringify] is right for strings with
    nothing to escape), a store holding only the root directory, engine
    handles and a few environments, for runs on concrete inputs. *)

Definition posix : Host := posix_path (fun s => dq +:+ s +:+ dq).

Definition root_store : MemStore := {| dirs := {["/"]}; files := ∅ |}.

Definition handle_of (n : nat) (files : list OutputFile) : BuildResult :=
  {| handle := n; outputFiles := Some files; rebuild := true |}.

Definition out_a : OutputFile := {| path := "/out/a.js"; text := "..." |}.

Definition nested_c : OutputFile := {| path := "/a/b/c.js"; text := "..." |}.

(** The engine answers every build and rebuild with [r]. *)
Definition engine_gives (r : BuildResult) : Env MemStore :=
  {| engine_build := fun _ => Normal r;
     engine_rebuild := fun _ => Normal r;
     process_cwd := "/cwd";
     NODE_ENV := None;
     __dirname := "/lib";
     fs := @mem_fs posix |}.

(** The engine raises on every build and rebuild. *)
Definition engine_raises : Env MemStore :=
  {| engine_build := fun _ => Throw "build failed";
     engine_rebuild := fun _ => Throw "build failed";
     process_cwd := "/cwd";
     NODE_ENV := None;
     __dirname := "/lib";
     fs := @mem_fs posix |}.

Definition returning_hooks : Hooks :=
  {| start := Some (fun _ => Normal tt); done := Some (fun _ => Normal tt) |}.

Definition raising_start_hooks : Hooks :=
  {| start := Some (fun _ => Throw "start failed");
     done := Some (fun _ => Normal tt) |}.

(** [{ input: "a.ts", output: "/out/a.js", hooks, watch: true, memfs }] *)
Definition sample_options (h : Hooks) (use_memfs : bool)
  : CompilerOptions MemStore :=
  {| co_input := "a.ts"; co_output := "/out/a.js"; co_fileSystem := None;
     co_unpkg := None; co_watch := Some true; co_plugins := None;
     co_hooks := Some h; co_cwd := None; co_external := None;
     co_platform := None; co_format := None; co_memfs := Some use_memfs;
     co_globalName := None; co_http := None |}.

(** [{ input: "a.ts", output: "out.js" }] *)
Definition minimal_options : CompilerOptions MemStore :=
  {| co_input := "a.ts"; co_output := "out.js"; co_fileSystem := None;
     co_unpkg := None; co_watch := None; co_plugins := None;
     co_hooks := None; co_cwd := None; co_external := None;
     co_platform := None; co_format := None; co_memfs := None;
     co_globalName := None; co_http := None |}.

Definition fresh_world (o : CompilerOptions MemStore) : World MemStore :=
  {| this := @new_Compiler posix MemStore engine_raises o;
     store := root_store |}.

(** A world whose instance already holds handle [r] from a build. *)
Definition ready_world (o : CompilerOptions MemStore) (r : BuildResult)
  : World MemStore :=
  {| this := with_firstBuildPass true
               (with_result (Some r)
                  (@new_Compiler posix MemStore engine_raises o));
     store := root_store |}.

(** The externals of the first engine request in a list of calls. *)
Fixpoint requested_externals (l : list Event) : option (list string) :=
  match l with
  | [] => None
  | CallEngineBuild request :: _ => bo_external request
  | _ :: l' => requested_externals l'
  end.

(** A run of the sample instance, on the POSIX host. *)
Definition sample_build (env : Env MemStore) (w : World MemStore)
  : Run MemStore unit :=
  @build posix MemStore false env w.

(** A heap for the footer: object 1 is [module.exports] after the
    bundled code replaced it, object 2 the bare [exports]. *)
Definition data (v : Value) : Property :=
  {| slot := DataSlot v true; enumerable := true; configurable := true |}.

Definition module_exports_object : JSObject :=
  {| own := [("a", data (VNumber 1)); ("myLib", data (VString "lib"))];
     extensible := true;
     prototype := None |}.

Definition exports_object : JSObject :=
  {| own := [("a", data (VNumber 2));
             ("b", {| slot := AccessorSlot (Some (UserGetter 7));
                      enumerable := false;
                      configurable := true |})];
     extensible := true;
     prototype := None |}.

Definition footer_heap : Heap :=
  <[1 := module_exports_object]> (<[2 := exports_object]> ∅).

(** Bare-module resolution and the registry importer both resolve any
    specifier; the other plugins defer. *)
Definition two_resolvers (p : Plugin) (specifier : string) : Resolution :=
  match p with
  | pluginBareModule => Resolved ("/node_modules/" +:+ specifier) "file"
  | pluginUnpkg => Resolved ("https://unpkg.com/" +:+ specifier) "unpkg"
  | _ => Deferred
  end.

Definition browser_options : Options MemStore :=
  @normalizeOptions posix MemStore engine_raises
    {| co_input := "a.ts"; co_output := "out.js"; co_fileSystem := None;
       co_unpkg := Some true; co_watch := None; co_plugins := None;
       co_hooks := None; co_cwd := None; co_external := None;
       co_platform := Some "browser"; co_format := None; co_memfs := None;
       co_globalName := None; co_http := Some true |}.

(** ** Vocabulary of the further facts *)

(** A normalised options object read again as [CompilerOptions]:
    [Required<CompilerOptions>] is a [CompilerOptions]. *)
Definition as_sparse {S} (o : Options S) : CompilerOptions S :=
  {| co_input := input o;
     co_output := output o;
     co_fileSystem := Some (fileSystem o);
     co_unpkg := Some (unpkg o);
     co_watch := Some (watch o);
     co_plugins := Some (plugins o);
     co_hooks := hooks o;
     co_cwd := Some (cwd o);
     co_external := external o;
     co_platform := Some (platform o);
     co_format := Some (format o);
     co_memfs := Some (memfs o);
     co_globalName := globalName o;
     co_http := Some (http o) |}.

(** Joining onto an absolute path gives an absolute path. *)
Definition join_keeps_absolute (H : Host) : Prop :=
  forall a b, path_isAbsolute a = true ->
              path_isAbsolute (path_join [a; b]) = true.

(** What a user of an instance can do with it. *)
Inductive Op (S : Type) :=
| OpBuild (watch : bool) (env : Env S)
| OpAddWatchFile (id : string)
| OpWatcherEvent (now : Z) (env : Env S).
Arguments OpBuild {S} _ _.
Arguments OpAddWatchFile {S} _.
Arguments OpWatcherEvent {S} _ _.

Definition run_op `{Host} {S}
    (policy : Z -> Debounced -> bool * Debounced) (op : Op S) : M S unit :=
  match op with
  | OpBuild watch env => build watch env
  | OpAddWatchFile id => addWatchFile id
  | OpWatcherEvent now env =>
      bind (watcher_event policy now env) (fun _ => ret tt)
  end.

(** The world after a sequence of operations; a caller may go on after
    an operation that raised. *)
Fixpoint after_ops `{Host} {S}
    (policy : Z -> Debounced -> bool * Debounced)
    (ops : list (Op S)) (w : World S) : World S :=
  match ops with
  | [] => w
  | op :: ops' => after_ops policy ops' (world (run_op policy op w))
  end.

(** The outside calls of the sequence. *)
Fixpoint calls_of_ops `{Host} {S}
    (policy : Z -> Debounced -> bool * Debounced)
    (ops : list (Op S)) (w : World S) : list Event :=
  match ops with
  | [] => []
  | op :: ops' =>
      calls (run_op policy op w) ++
      calls_of_ops policy ops' (world (run_op policy op w))
  end.

Definition is_build_op {S} (op : Op S) : bool :=
  match op with
  | OpBuild _ _ => true
  | _ => false
  end.

Definition is_full_build_call (e : Event) : bool :=
  match e with
  | CallEngineBuild _ => true
  | _ => false
  end.

(** [key] is an own property of the object at [l]. *)
Definition has_own (h : Heap) (l : loc) (key : string) : bool :=
  match own_property h l key with
  | Some _ => true
  | None => false
  end.

(** More concrete collaborators. *)

Definition no_rebuild_handle : BuildResult :=
  {| handle := 9; outputFiles := None; rebuild := false |}.

Definition neutral_options : Options MemStore :=
  @normalizeOptions posix MemStore engine_raises
    {| co_input := "a.ts"; co_output := "out.js"; co_fileSystem := None;
       co_unpkg := None; co_watch := None; co_plugins := None;
       co_hooks := None; co_cwd := None; co_external := None;
       co_platform := Some "neutral"; co_format := None; co_memfs := None;
       co_globalName := None; co_http := None |}.

Definition frozen_exports_heap : Heap :=
  <[1 := {| own := own module_exports_object;
            extensible := false;
            prototype := None |}]> (<[2 := exports_object]> ∅).

Definition sample_ops : list (Op MemStore) :=
  [ OpAddWatchFile "/cwd/a.ts";
    OpWatcherEvent 0%Z (engine_gives (handle_of 1 []));
    OpBuild false engine_raises;
    OpAddWatchFile "/cwd/b.ts";
    OpBuild true (engine_gives (handle_of 1 []));
    OpWatcherEvent 900%Z (engine_gives (handle_of 2 [])) ].

(** * Facts *)

(** ** Runs of [build] *)

Section Orchestrator.
Context `{Host} {S : Type}.
Implicit Types (w : World S) (env : Env S) (c : Compiler S).

Ltac unfold_M :=
  unfold mbind, M_bind, mret, M_ret, bind, ret, get_this, set_this,
    outside, emit in *.

Lemma write_output_run (x : OutputFile) w :
  let a := fileSystem (options (this w)) in
  let parent := path_dirname (path x) in
  write_output x w =
    if existsSync a parent (store w) then
      match writeFileSync a (path x) (text x) (store w) with
      | Normal s' =>
          {| completion := Normal tt;
             world := {| this := this w; store := s' |};
             calls := [CallExistsSync parent;
                       CallWriteFileSync (path x) (text x)] |}
      | Throw e =>
          {| completion := Throw e; world := w;
             calls := [CallExistsSync parent;
                       CallWriteFileSync (path x) (text x)] |}
      end
    else
      match mkdirSync a parent (store w) with
      | Normal s1 =>
          match writeFileSync a (path x) (text x) s1 with
          | Normal s' =>
              {| completion := Normal tt;
                 world := {| this := this w; store := s' |};
                 calls := [CallExistsSync parent; CallMkdirSync parent;
                           CallWriteFileSync (path x) (text x)] |}
          | Throw e =>
              {| completion := Throw e;
                 world := {| this := this w; store := s1 |};
                 calls := [CallExistsSync parent; CallMkdirSync parent;
                           CallWriteFileSync (path x) (text x)] |}
          end
      | Throw e =>
          {| completion := Throw e; world := w;
             calls := [CallExistsSync parent; CallMkdirSync parent] |}
      end.
Proof.
  unfold write_output, call_existsSync, call_mkdirSync, call_writeFileSync,
    adapter_update.
  unfold_M. cbn.
  destruct (existsSync _ _ _); cbn.
  - destruct (writeFileSync _ _ _ _); reflexivity.
  - destruct (mkdirSync _ _ _); cbn; [|reflexivity].
    destruct (writeFileSync _ _ _ _); reflexivity.
Qed.

Lemma forEach_write_output_run (files : list OutputFile) : forall w,
  this (world (forEach files write_output w)) = this w /\
  calls (forEach files write_output w) =
    described_adapter_calls (fileSystem (options (this w))) files (store w).
Proof.
  induction files as [|x files IH]; intros w; [split; reflexivity|].
  cbn [forEach described_adapter_calls].
  unfold bind. rewrite write_output_run.
  destruct (existsSync _ _ _) eqn:He.
  - destruct (writeFileSync _ _ _ _) as [s'|e] eqn:Hw; cbn;
      [|split; reflexivity].
    destruct (IH {| this := this w; store := s' |}) as [IH1 IH2].
    cbn in IH1, IH2. rewrite IH1, IH2. split; reflexivity.
  - destruct (mkdirSync _ _ _) as [s1|e] eqn:Hm; cbn; [|split; reflexivity].
    destruct (writeFileSync _ _ _ _) as [s'|e] eqn:Hw; cbn;
      [|split; reflexivity].
    destruct (IH {| this := this w; store := s' |}) as [IH1 IH2].
    cbn in IH1, IH2. rewrite IH1, IH2. split; reflexivity.
Qed.

Lemma write_outputs_run w :
  this (world (write_outputs w)) = this w /\
  calls (write_outputs w) =
    described_adapter_calls (fileSystem (options (this w)))
      (artifacts (options (this w)) (result (this w))) (store w).
Proof.
  unfold write_outputs, artifacts. unfold_M. cbn.
  destruct (memfs _); [|split; reflexivity].
  destruct (result (this w)) as [r|]; [|split; reflexivity].
  destruct (outputFiles r) as [files|]; [|split; reflexivity].
  cbn. apply forEach_write_output_run.
Qed.

Lemma write_outputs_nothing w :
  artifacts (options (this w)) (result (this w)) = [] ->
  write_outputs w = {| completion := Normal tt; world := w; calls := [] |}.
Proof.
  unfold write_outputs, artifacts. unfold_M. cbn.
  destruct (memfs _); [|reflexivity].
  destruct (result (this w)) as [r|]; [|reflexivity].
  destruct (outputFiles r) as [files|]; [|reflexivity].
  cbn. intros ->. reflexivity.
Qed.

(** What one call of [build] does, once the [start] hook has returned. *)
Lemma build_run watch env w :
  start_returns (this w) ->
  build watch env w =
    match engine_reply env (this w) with
    | Throw e =>
        {| completion := Throw e;
           world := {| this := with_firstBuildPass true (this w);
                       store := store w |};
           calls := start_calls (this w) ++ engine_calls env (this w) |}
    | Normal r =>
        let rw := write_outputs {| this := with_result r (this w);
                                   store := store w |} in
        {| completion :=
             match completion rw with
             | Normal _ => done_completion (this w) r
             | Throw e => Throw e
             end;
           world := {| this := with_firstBuildPass true
                                 (with_result r (this w));
                       store := store (world rw) |};
           calls :=
             start_calls (this w) ++ engine_calls env (this w) ++ calls rw ++
             match completion rw with
             | Normal _ => done_calls (this w) r
             | Throw _ => []
             end |}
    end.
Proof.
  intros Hs.
  assert (Hstart : call_start w =
            {| completion := Normal tt; world := w;
               calls := start_calls (this w) |}).
  { unfold call_start, start_calls, start_returns in *. unfold_M. cbn.
    destruct (hooks _) as [h|]; [|reflexivity].
    destruct (start h) as [f|]; [|reflexivity]. cbn. now rewrite Hs. }
  assert (Heng : build_or_rebuild env w =
            match engine_reply env (this w) with
            | Throw e => {| completion := Throw e; world := w;
                            calls := engine_calls env (this w) |}
            | Normal r => {| completion := Normal tt;
                             world := {| this := with_result r (this w);
                                         store := store w |};
                             calls := engine_calls env (this w) |}
            end).
  { unfold build_or_rebuild, engine_reply, engine_calls, await_rebuild,
      await_build, set_result, full_request, with_result.
    unfold_M. cbn.
    destruct (result (this w)) as [h|]; cbn.
    - destruct (rebuild h); cbn; [|reflexivity].
      destruct (engine_rebuild env h); reflexivity.
    - destruct (engine_build env _); reflexivity. }
  unfold build, try_finally, build_try. unfold mbind, M_bind, bind.
  rewrite Hstart. cbn. rewrite Heng.
  destruct (engine_reply env (this w)) as [r|e]; cbn.
  - destruct (write_outputs_run
                {| this := with_result r (this w); store := store w |})
      as [Hthis _].
    destruct (write_outputs _) as [cw ww lw]. cbn in Hthis |- *.
    destruct cw as [[]|e]; cbn.
    + unfold call_done, done_calls, done_completion, done_hook,
        set_firstBuildPass, with_firstBuildPass.
      unfold_M. cbn. rewrite Hthis. cbn.
      destruct (hooks (options (this w))) as [h|]; cbn;
        [destruct (done h) as [f|]; cbn|];
        rewrite ?Hthis; cbn; rewrite ?app_nil_r; reflexivity.
    + unfold set_firstBuildPass, with_firstBuildPass. unfold_M. cbn.
      rewrite Hthis. cbn. rewrite ?app_nil_r. reflexivity.
  - unfold set_firstBuildPass, with_firstBuildPass. unfold_M. cbn.
    rewrite ?app_nil_r. reflexivity.
Qed.

(** What it does when the [start] hook raises: nothing else. *)
Lemma build_start_throws watch env w h f e :
  hooks (options (this w)) = Some h -> start h = Some f -> f tt = Throw e ->
  build watch env w =
    {| completion := Throw e; world := w; calls := [CallHookStart] |}.
Proof.
  intros Hh Hf He. unfold build, call_start. unfold_M. cbn.
  rewrite Hh, Hf. cbn. rewrite He. reflexivity.
Qed.

End Orchestrator.

Section OrchestratorClaims.
Context `{Host} {S : Type}.
Implicit Types (w : World S) (env : Env S) (c : Compiler S).

Lemma described_calls_are_adapter_calls (a : FileSystem S) files :
  forall s, Forall (fun e => is_adapter_call e = true)
              (described_adapter_calls a files s).
Proof.
  induction files as [|x files IH]; intros s; cbn; [constructor|].
  destruct (existsSync _ _ _).
  - repeat constructor. destruct (writeFileSync _ _ _ _); [apply IH|constructor].
  - repeat constructor. destruct (mkdirSync _ _ _); [|constructor].
    constructor; [reflexivity|].
    destruct (writeFileSync _ _ _ _); [apply IH|constructor].
Qed.

Lemma filter_all {A} (f : A -> bool) l :
  Forall (fun e => f e = true) l -> List.filter f l = l.
Proof.
  induction 1 as [|e l He _ IH]; [reflexivity|]. cbn. now rewrite He, IH.
Qed.

Lemma filter_none {A} (f : A -> bool) l :
  Forall (fun e => f e = false) l -> List.filter f l = [].
Proof.
  induction 1 as [|e l He _ IH]; [reflexivity|]. cbn. now rewrite He.
Qed.

Lemma adapter_calls_not_done l :
  Forall (fun e => is_adapter_call e = true) l ->
  Forall (fun e => is_done_call e = false) l.
Proof.
  apply List.Forall_impl. intros []; cbn; congruence.
Qed.

Lemma start_calls_plain c :
  Forall (fun e => is_done_call e = false /\ is_adapter_call e = false /\
                   is_rebuild_call e = false) (start_calls c).
Proof.
  unfold start_calls. destruct (hooks _) as [h|]; [|constructor].
  destruct (start h); repeat constructor.
Qed.

Lemma engine_calls_plain env c :
  Forall (fun e => is_done_call e = false /\ is_adapter_call e = false)
    (engine_calls env c).
Proof.
  unfold engine_calls. destruct (result c) as [h|]; [|repeat constructor].
  destruct (rebuild h); repeat constructor.
Qed.

Lemma count_done_app l1 l2 :
  count_done (l1 ++ l2) = count_done l1 + count_done l2.
Proof. unfold count_done. now rewrite List.filter_app, length_app. Qed.

Lemma count_done_none l :
  Forall (fun e => is_done_call e = false) l -> count_done l = 0.
Proof. intros Hl. unfold count_done. now rewrite filter_none. Qed.

Lemma count_done_start c : count_done (start_calls c) = 0.
Proof.
  apply count_done_none. eapply List.Forall_impl; [|apply start_calls_plain].
  cbn. tauto.
Qed.

Lemma count_done_engine env c : count_done (engine_calls env c) = 0.
Proof.
  apply count_done_none. eapply List.Forall_impl; [|apply engine_calls_plain].
  cbn. tauto.
Qed.

Lemma count_done_writes w : count_done (calls (write_outputs w)) = 0.
Proof.
  destruct (write_outputs_run w) as [_ ->].
  apply count_done_none, adapter_calls_not_done,
    described_calls_are_adapter_calls.
Qed.

Lemma adapter_calls_app l1 l2 :
  adapter_calls (l1 ++ l2) = adapter_calls l1 ++ adapter_calls l2.
Proof. apply List.filter_app. Qed.

Lemma adapter_calls_start c : adapter_calls (start_calls c) = [].
Proof.
  apply filter_none. eapply List.Forall_impl; [|apply start_calls_plain].
  cbn. tauto.
Qed.

Lemma adapter_calls_engine env c : adapter_calls (engine_calls env c) = [].
Proof.
  apply filter_none. eapply List.Forall_impl; [|apply engine_calls_plain].
  cbn. tauto.
Qed.

Lemma adapter_calls_done c r : adapter_calls (done_calls c r) = [].
Proof. unfold done_calls. now destruct (done_hook c). Qed.

Lemma start_returns_options c c' :
  options c' = options c -> start_returns c -> start_returns c'.
Proof. unfold start_returns. now intros ->. Qed.

(** [build] never touches the options or the watcher. *)
Lemma build_keeps watch env w :
  options (this (world (build watch env w))) = options (this w) /\
  watcher (this (world (build watch env w))) = watcher (this w).
Proof.
  destruct (hooks (options (this w))) as [h|] eqn:Hh.
  2:{ rewrite build_run by (unfold start_returns; now rewrite Hh).
      destruct (engine_reply _ _); split; reflexivity. }
  destruct (start h) as [f|] eqn:Hf.
  2:{ rewrite build_run by (unfold start_returns; now rewrite Hh, Hf).
      destruct (engine_reply _ _); split; reflexivity. }
  destruct (f tt) as [[]|e] eqn:He.
  - rewrite build_run by (unfold start_returns; now rewrite Hh, Hf).
    destruct (engine_reply _ _); split; reflexivity.
  - rewrite (build_start_throws _ _ _ _ _ _ Hh Hf He). split; reflexivity.
Qed.

(** C1, as amended: the [done] hook is called exactly once by a [build]
    whose engine call and adapter writes succeed, with the handle then
    stored, and its completion is that of [build]; when the engine's
    build or rebuild raises, the hook is not called and the error
    reaches the caller of [build]. *)
Theorem C1_done_hook_only_after_success watch env w f :
  start_returns (this w) ->
  done_hook (this w) = Some f ->
  (forall e, engine_reply env (this w) = Throw e ->
     completion (build watch env w) = Throw e /\
     count_done (calls (build watch env w)) = 0) /\
  (forall r, engine_reply env (this w) = Normal r ->
     completion (write_outputs {| this := with_result r (this w);
                                  store := store w |}) = Normal tt ->
     count_done (calls (build watch env w)) = 1 /\
     last (calls (build watch env w)) = Some (CallHookDone r) /\
     completion (build watch env w) = f r).
Proof.
  intros Hs Hd. split.
  - intros e He. rewrite build_run, He by assumption.
    cbn [completion calls]. split; [reflexivity|].
    now rewrite count_done_app, count_done_start, count_done_engine.
  - intros r Hr Hw. rewrite build_run, Hr by assumption.
    cbn [completion calls]. rewrite Hw.
    unfold done_calls, done_completion. rewrite Hd.
    rewrite !count_done_app, count_done_start, count_done_engine,
      count_done_writes.
    split; [reflexivity|]. split; [|reflexivity].
    rewrite !app_assoc. apply last_snoc.
Qed.

(** C2: the handle changes only when the engine call succeeds.  When
    the engine raises, [this.result] is what it was: still absent after
    a failed first build, so that the next [build] asks the engine for
    a full build and makes no rebuild call; still the previous handle
    after a failed rebuild. *)
Theorem C2_handle_updated_only_on_success watch env w :
  start_returns (this w) ->
  (forall e, engine_reply env (this w) = Throw e ->
     result (this (world (build watch env w))) = result (this w)) /\
  (forall r, engine_reply env (this w) = Normal r ->
     result (this (world (build watch env w))) = r) /\
  (forall e, result (this w) = None ->
     engine_reply env (this w) = Throw e ->
     let w' := world (build watch env w) in
     result (this w') = None /\
     forall watch' env',
       In (CallEngineBuild (full_request env' (this w')))
          (calls (build watch' env' w')) /\
       List.filter is_rebuild_call (calls (build watch' env' w')) = []).
Proof.
  intros Hs. split; [|split].
  - intros e He. now rewrite build_run, He.
  - intros r Hr. now rewrite build_run, Hr.
  - intros e Hnone He w'.
    assert (Hres : result (this w') = None).
    { subst w'. now rewrite build_run, He. }
    split; [exact Hres|]. intros watch' env'.
    assert (Hs' : start_returns (this w')).
    { eapply start_returns_options; [|exact Hs]. apply build_keeps. }
    assert (Hcalls : engine_calls env' (this w') =
                     [CallEngineBuild (full_request env' (this w'))]).
    { unfold engine_calls. now rewrite Hres. }
    assert (Hpre : exists tl,
               calls (build watch' env' w') =
               start_calls (this w') ++
               [CallEngineBuild (full_request env' (this w'))] ++ tl /\
               List.filter is_rebuild_call tl = []).
    { rewrite build_run by assumption. rewrite Hcalls.
      destruct (engine_reply env' (this w')) as [r|e']; cbn.
      - eexists. split; [reflexivity|].
        rewrite List.filter_app. rewrite (filter_none _ (calls _)).
        + destruct (completion _); [|reflexivity].
          unfold done_calls. now destruct (done_hook _).
        + destruct (write_outputs_run
                      {| this := with_result r (this w');
                         store := store w' |}) as [_ ->].
          eapply List.Forall_impl; [|apply described_calls_are_adapter_calls].
          intros []; cbn; congruence.
      - exists []. split; reflexivity. }
    destruct Hpre as (tl & -> & Htl). split.
    + apply in_or_app. right. now left.
    + rewrite List.filter_app. cbn. rewrite Htl, app_nil_r.
      apply filter_none. eapply List.Forall_impl; [|apply start_calls_plain].
      cbn. tauto.
Qed.

Lemma watcher_event_gated policy now env w :
  firstBuildPass (this w) = false ->
  completion (watcher_event policy now env w) = Normal false /\
  calls (watcher_event policy now env w) = [] /\
  firstBuildPass (this (world (watcher_event policy now env w))) = false /\
  result (this (world (watcher_event policy now env w))) = result (this w) /\
  store (world (watcher_event policy now env w)) = store w.
Proof.
  intros Hf. unfold watcher_event, watch_callback, set_watcher.
  unfold mbind, M_bind, bind, ret, get_this, set_this. cbn.
  destruct (watcher (this w)) as [fw|]; cbn; [|now rewrite Hf].
  destruct (policy now (on_all fw)) as [[] d]; cbn; rewrite ?Hf; cbn;
    repeat split; assumption.
Qed.

Lemma watcher_events_gated policy events : forall w,
  firstBuildPass (this w) = false ->
  completion (watcher_events policy events w) = Normal 0 /\
  calls (watcher_events policy events w) = [] /\
  firstBuildPass (this (world (watcher_events policy events w))) = false /\
  result (this (world (watcher_events policy events w))) = result (this w) /\
  store (world (watcher_events policy events w)) = store w.
Proof.
  induction events as [|[now env] events IH]; intros w Hf.
  - repeat split; assumption.
  - cbn [watcher_events]. unfold bind.
    destruct (watcher_event_gated policy now env w Hf)
      as (Hc & Hl & Hf' & Hr & Hst).
    rewrite Hc, Hl.
    destruct (IH _ Hf') as (Hc2 & Hl2 & Hf2 & Hr2 & Hst2).
    rewrite Hc2, Hl2. cbn. rewrite Hf2, Hr2, Hst2, Hr, Hst.
    repeat split; reflexivity.
Qed.

Lemma build_sets_firstBuildPass watch env w :
  start_returns (this w) ->
  firstBuildPass (this (world (build watch env w))) = true.
Proof.
  intros Hs. rewrite build_run by assumption.
  now destruct (engine_reply _ _).
Qed.

Lemma adapter_calls_described (a : FileSystem S) files s :
  adapter_calls (described_adapter_calls a files s) =
  described_adapter_calls a files s.
Proof. apply filter_all, described_calls_are_adapter_calls. Qed.

Lemma described_mkdir_is_parent (a : FileSystem S) files : forall s p,
  In (CallMkdirSync p) (described_adapter_calls a files s) ->
  exists x, In x files /\ p = path_dirname (path x).
Proof.
  induction files as [|x files IH]; intros s p; cbn; [tauto|].
  assert (Hrest : forall s', In (CallMkdirSync p)
                    (described_adapter_calls a files s') ->
                  exists x0, (x = x0 \/ In x0 files) /\
                             p = path_dirname (path x0)).
  { intros s' Hin. destruct (IH _ _ Hin) as (x0 & Hx0 & ->). eauto. }
  destruct (existsSync _ _ _).
  - intros [Hq|[Hq|Hin]]; try discriminate.
    destruct (writeFileSync _ _ _ _); [eauto|destruct Hin].
  - intros [Hq|[Hq|Hin]]; try discriminate.
    + injection Hq as <-. eauto.
    + destruct (mkdirSync _ _ _); [|destruct Hin].
      destruct Hin as [Hq|Hin]; [discriminate|].
      destruct (writeFileSync _ _ _ _); [eauto|destruct Hin].
Qed.

(** C4, as amended: with [memfs] set, a [build] whose engine call
    raises makes no adapter call and leaves the store as it was; one
    whose engine call gave a handle makes, for each artifact in order,
    one [existsSync] of the parent directory, one [mkdirSync] of that
    parent when it is missing, then one [writeFileSync] of the
    artifact's path and text, stopping at a call that raises; these
    calls come after the engine call, and the only directories it ever
    creates are parents of artifacts. *)
Theorem C4_adapter_writes watch env w :
  start_returns (this w) ->
  memfs (options (this w)) = true ->
  (forall e, engine_reply env (this w) = Throw e ->
     adapter_calls (calls (build watch env w)) = [] /\
     store (world (build watch env w)) = store w) /\
  (forall r files,
     engine_reply env (this w) = Normal (Some r) ->
     outputFiles r = Some files ->
     adapter_calls (calls (build watch env w)) =
       described_adapter_calls (fileSystem (options (this w))) files
         (store w) /\
     (exists after,
        calls (build watch env w) =
          start_calls (this w) ++ engine_calls env (this w) ++
          described_adapter_calls (fileSystem (options (this w))) files
            (store w) ++ after /\
        adapter_calls after = []) /\
     forall p, In (CallMkdirSync p) (calls (build watch env w)) ->
       exists x, In x files /\ p = path_dirname (path x)).
Proof.
  intros Hs Hm. split.
  - intros e He. rewrite build_run, He by assumption. cbn [calls world store].
    now rewrite adapter_calls_app, adapter_calls_start, adapter_calls_engine.
  - intros r files Hr Hfiles. rewrite build_run, Hr by assumption.
    cbn [calls]. set (w1 := {| this := _; store := _ |}).
    destruct (write_outputs_run w1) as [_ Hcalls].
    assert (Hart : artifacts (options (this w1)) (result (this w1)) = files).
    { subst w1. unfold artifacts. cbn. now rewrite Hm, Hfiles. }
    rewrite Hart in Hcalls. cbn in Hcalls. rewrite Hcalls.
    split; [|split].
    + rewrite !adapter_calls_app, adapter_calls_start, adapter_calls_engine,
        adapter_calls_described.
      destruct (completion _); [rewrite adapter_calls_done|];
        now rewrite app_nil_r.
    + eexists. split; [reflexivity|].
      destruct (completion _); [apply adapter_calls_done | reflexivity].
    + intros p Hin.
      apply in_app_or in Hin as [Hin|Hin].
      { exfalso. pose proof (start_calls_plain (this w)) as Hp.
        rewrite List.Forall_forall in Hp. apply Hp in Hin. cbn in Hin.
        destruct Hin as (_ & ? & _). discriminate. }
      apply in_app_or in Hin as [Hin|Hin].
      { exfalso. pose proof (engine_calls_plain env (this w)) as Hp.
        rewrite List.Forall_forall in Hp. apply Hp in Hin. cbn in Hin.
        destruct Hin as (_ & ?). discriminate. }
      apply in_app_or in Hin as [Hin|Hin].
      { eapply described_mkdir_is_parent. exact Hin. }
      exfalso. destruct (completion _); [|destruct Hin].
      unfold done_calls in Hin. destruct (done_hook _); [|destruct Hin].
      destruct Hin as [?|[]]. discriminate.
Qed.

(** C10: the [watch] argument of [build] is not used: for any two
    values of it, and so for [true] and [false], [build] completes the
    same way, makes the same outside calls (engine, hooks, adapter) and
    leaves the same instance and store. *)
Theorem C10_watch_argument_ignored (watch1 watch2 : bool) env w :
  build watch1 env w = build watch2 env w /\
  build true env w = build false env w.
Proof. split; reflexivity. Qed.

Lemma watcher_event_suppressed now deadline env w fw :
  watcher (this w) = Some fw ->
  timeout (on_all fw) = Some deadline ->
  (now < deadline)%Z ->
  watcher_event installed_debounce now env w =
    {| completion := Normal false; world := w; calls := [] |}.
Proof.
  intros Hw Ht Hlt.
  unfold watcher_event, installed_debounce, debounce, set_watcher.
  unfold mbind, M_bind, bind, ret, get_this, set_this. cbn.
  rewrite Hw. cbn. rewrite Ht.
  apply Z.ltb_lt in Hlt. rewrite Hlt. cbn.
  destruct w as [[o r wt f] st]. cbn in *. subst wt.
  destruct fw as [files d]. reflexivity.
Qed.

Lemma watcher_events_suppressed deadline events : forall w fw,
  watcher (this w) = Some fw ->
  timeout (on_all fw) = Some deadline ->
  Forall (fun ev : Z * Env S => (fst ev < deadline)%Z) events ->
  watcher_events installed_debounce events w =
    {| completion := Normal 0; world := w; calls := [] |}.
Proof.
  induction events as [|[now env] events IH]; intros w fw Hw Ht Hall.
  - reflexivity.
  - apply Forall_cons in Hall as [Hnow Hall]. cbn in Hnow.
    cbn [watcher_events]. unfold bind.
    rewrite (watcher_event_suppressed now deadline env w fw Hw Ht Hnow).
    cbn. now rewrite (IH w fw Hw Ht Hall).
Qed.

Lemma watcher_event_leading now env w fw :
  watcher (this w) = Some fw ->
  timer_idle now (on_all fw) = true ->
  firstBuildPass (this w) = true ->
  let w1 := {| this := with_watcher (Some (armed now fw)) (this w);
               store := store w |} in
  watcher_event installed_debounce now env w =
    {| completion := Normal true;
       world := world (detached (build false env) w1);
       calls := calls (detached (build false env) w1) |}.
Proof.
  intros Hw Hidle Hf w1.
  assert (Hd : debounce 500 true now (on_all fw) =
               (true, {| timeout := Some (now + 500)%Z |})).
  { unfold debounce, timer_idle in *.
    destruct (timeout (on_all fw)) as [expiry|]; [|reflexivity].
    apply Z.leb_le in Hidle.
    destruct (Z.ltb_spec now expiry); [lia|reflexivity]. }
  destruct w as [[o r wt f] st]. cbn in Hw, Hf. subst wt f.
  subst w1. unfold with_watcher.
  unfold watcher_event, installed_debounce, watch_callback, set_watcher.
  unfold mbind, M_bind, bind, ret, get_this, set_this.
  cbn -[detached build armed]. rewrite Hd. cbn -[detached build armed].
  set (w1 := {| this := _; store := st |}).
  assert (Hn : completion (detached (build false env) w1) = Normal tt).
  { unfold detached. now destruct (completion (build false env w1)). }
  rewrite Hn. cbn -[detached build]. now rewrite !app_nil_r.
Qed.

(** C7, as amended: of the events that arrive within one debounce
    window, after the first build pass, exactly one triggers [build]:
    the first.  The whole window does what one [build] at the first
    event does, with the answers of the engine and the process at that
    event; the later events of the window change nothing. *)
Theorem C7_one_build_at_the_leading_event t0 env0
    (later : list (Z * Env S)) w fw :
  watcher (this w) = Some fw ->
  timer_idle t0 (on_all fw) = true ->
  firstBuildPass (this w) = true ->
  Forall (fun ev => (fst ev < t0 + 500)%Z) later ->
  let w1 := {| this := with_watcher (Some (armed t0 fw)) (this w);
               store := store w |} in
  watcher_events installed_debounce ((t0, env0) :: later) w =
    {| completion := Normal 1;
       world := world (detached (build false env0) w1);
       calls := calls (detached (build false env0) w1) |}.
Proof.
  intros Hw Hidle Hf Hlater w1.
  cbn [watcher_events]. unfold bind.
  rewrite (watcher_event_leading t0 env0 w fw Hw Hidle Hf). fold w1.
  cbn [completion world calls].
  assert (Hk : watcher (this (world (detached (build false env0) w1))) =
               Some (armed t0 fw)).
  { assert (Hwd : world (detached (build false env0) w1) =
                  world (build false env0 w1)).
    { unfold detached. now destruct (completion (build false env0 w1)). }
    rewrite Hwd. destruct (build_keeps false env0 w1) as [_ ->].
    reflexivity. }
  rewrite (watcher_events_suppressed (t0 + 500) later _ _ Hk eq_refl Hlater).
  cbn. now rewrite app_nil_r.
Qed.

End OrchestratorClaims.

(** ** The plugin pipeline and the externals *)

Section Pipeline.
Context `{Host} {S : Type}.

Lemma build_plugins_NoDup (o : Options S) : NoDup (build_plugins o).
Proof.
  unfold build_plugins, and_plugin.
  destruct (String.eqb (platform o) "browser"), (http o), (unpkg o), (memfs o);
    cbn; repeat (apply NoDup_cons; split;
                 [rewrite ?elem_of_cons, elem_of_nil; intuition discriminate|]);
    apply NoDup_nil; exact I.
Qed.

Lemma resolve_chain_first (resolveSpecifier : Plugin -> string -> Resolution)
    (specifier : string) (pipeline : list Plugin) : forall i p,
  pipeline !! i = Some p ->
  resolveSpecifier p specifier <> Deferred ->
  exists k winner,
    k <= i /\ pipeline !! k = Some winner /\
    resolveSpecifier winner specifier <> Deferred /\
    resolve_chain resolveSpecifier pipeline specifier =
      Some (winner, resolveSpecifier winner specifier) /\
    forall k' p', k' < k -> pipeline !! k' = Some p' ->
      resolveSpecifier p' specifier = Deferred.
Proof.
  induction pipeline as [|p0 pipeline IH]; intros i p Hi Hp; [discriminate|].
  cbn [resolve_chain].
  destruct (resolveSpecifier p0 specifier) as [rp ns|] eqn:H0.
  - exists 0, p0. repeat split; [lia|congruence|now rewrite H0|].
    intros k' p' Hk. lia.
  - destruct i as [|i]; cbn in Hi; [congruence|].
    destruct (IH i p Hi Hp) as (k & winner & Hk & Hl & Hw & Hr & Hbefore).
    exists (Datatypes.S k), winner. repeat split; try assumption; [lia|].
    intros [|k'] p' Hlt Hl'; cbn in Hl'; [congruence|].
    apply (Hbefore k' p'); [lia|assumption].
Qed.

(** C5: the plugin array of a full build is, in this order, the
    polyfill and the external-global mapping (both exactly when the
    platform is [browser]), entry substitution, the proxy of the user
    plugins, bare-module resolution, the HTTP importer (when [http]),
    the registry importer (when [unpkg]) and the memory-filesystem
    output (when [memfs]); it is the array the engine receives; and
    when two of its plugins can resolve a specifier, the resolution is
    the answer of the first plugin of the array that resolves it, which
    is never the later of the two. *)
Theorem C5_pipeline_order (o : Options S) (env : Env S) :
  build_plugins o =
    (if String.eqb (platform o) "browser"
     then [pluginNodePolyfill; pluginGlobalExternal] else []) ++
    [pluginEntry; rollupProxyPlugin (watchPlugin :: plugins o);
     pluginBareModule] ++
    (if http o then [pluginHttp] else []) ++
    (if unpkg o then [pluginUnpkg] else []) ++
    (if memfs o then [pluginMemfs] else []) /\
  bo_plugins (normalizeEsbuildOptions (build_request env o)) =
    Some (build_plugins o) /\
  forall resolveSpecifier specifier i j p q,
    build_plugins o !! i = Some p ->
    build_plugins o !! j = Some q ->
    i < j ->
    resolveSpecifier p specifier <> Deferred ->
    resolveSpecifier q specifier <> Deferred ->
    exists k winner,
      k <= i /\ build_plugins o !! k = Some winner /\
      winner <> q /\
      resolveSpecifier winner specifier <> Deferred /\
      resolve_chain resolveSpecifier (build_plugins o) specifier =
        Some (winner, resolveSpecifier winner specifier) /\
      forall k' p', k' < k -> build_plugins o !! k' = Some p' ->
        resolveSpecifier p' specifier = Deferred.
Proof.
  split; [|split].
  - unfold build_plugins, and_plugin.
    destruct (String.eqb (platform o) "browser"), (http o), (unpkg o),
      (memfs o); reflexivity.
  - reflexivity.
  - intros R s i j p q Hi Hj Hlt Hp Hq.
    destruct (resolve_chain_first R s (build_plugins o) i p Hi Hp)
      as (k & winner & Hk & Hl & Hw & Hr & Hbefore).
    exists k, winner. repeat split; try assumption.
    intros ->.
    pose proof (NoDup_lookup _ _ _ _ (build_plugins_NoDup o) Hl Hj). lia.
Qed.

(** The externals of the request of an instance made by the
    constructor are the caller's list, or the empty list when the
    caller gave none: the platform lists are never used. *)
Lemma constructed_externals (env env' : Env S) (co : CompilerOptions S) :
  bo_external (full_request env' (new_Compiler env co)) =
    Some (nullish (co_external co) []).
Proof. reflexivity. Qed.

End Pipeline.

(** ** Wrapper text *)

Section Codegen.
Context `{Host} {S : Type}.

Lemma append_nil (b : string) : "" +:+ b = b.
Proof. reflexivity. Qed.

Lemma append_cons c (a b : string) : String c a +:+ b = String c (a +:+ b).
Proof. reflexivity. Qed.

Lemma append_assoc (a b c : string) : (a +:+ b) +:+ c = a +:+ (b +:+ c).
Proof.
  induction a as [|x a IH]; [reflexivity|].
  rewrite !append_cons. f_equal. exact IH.
Qed.

Lemma length_append (a b : string) :
  String.length (a +:+ b) = String.length a + String.length b.
Proof.
  induction a as [|x a IH]; [reflexivity|].
  rewrite append_cons. simpl. now rewrite IH.
Qed.

Lemma strip_prefix_app m r : strip_prefix m (m +:+ r) = Some r.
Proof.
  induction m as [|a m IH]; [reflexivity|].
  rewrite append_cons. simpl. rewrite Ascii.eqb_refl. exact IH.
Qed.

Lemma has_quote_cons c x :
  has_quote (String c x) = Ascii.eqb c single_quote || has_quote x.
Proof. reflexivity. Qed.

Lemma text_until_quote_name x r :
  has_quote x = false ->
  text_until_quote (x +:+ String single_quote r) = Some (x, r).
Proof.
  induction x as [|c x IH]; intros Hq.
  - reflexivity.
  - rewrite has_quote_cons in Hq. apply orb_false_iff in Hq as [Hc Hx].
    rewrite append_cons. simpl. rewrite Hc, (IH Hx). reflexivity.
Qed.

Lemma quoted_texts_stop fuel tail :
  starts_with_quote tail = false -> quoted_texts_from fuel tail = [].
Proof.
  destruct fuel; [reflexivity|]. destruct tail as [|c t]; [reflexivity|].
  simpl. intros ->. reflexivity.
Qed.

Lemma quote_name_app x r :
  quote_name x +:+ r = String single_quote (x +:+ String single_quote r).
Proof. unfold quote_name. rewrite !append_assoc. reflexivity. Qed.

Lemma defineDeps_cons2 x y E :
  defineDeps (x :: y :: E) = quote_name x +:+ ", " +:+ defineDeps (y :: E).
Proof. reflexivity. Qed.

Lemma quoted_texts_defineDeps E : forall fuel tail,
  Forall (fun x => has_quote x = false) E ->
  length E < fuel ->
  starts_with_quote tail = false ->
  (forall r, strip_prefix ", " tail = Some r -> starts_with_quote r = false) ->
  quoted_texts_from fuel (defineDeps E +:+ tail) = E.
Proof.
  induction E as [|x E IH]; intros fuel tail HE Hfuel Htail Hsep.
  - now apply quoted_texts_stop.
  - destruct fuel as [|fuel]; [simpl in Hfuel; lia|].
    apply Forall_cons in HE as [Hx HE].
    destruct E as [|y E].
    + change (defineDeps [x]) with (quote_name x).
      rewrite quote_name_app. cbn [quoted_texts_from].
      rewrite Ascii.eqb_refl, (text_until_quote_name _ _ Hx).
      destruct (strip_prefix ", " tail) as [r|] eqn:Hr; [|reflexivity].
      now rewrite (quoted_texts_stop _ _ (Hsep r eq_refl)).
    + rewrite defineDeps_cons2, !append_assoc, quote_name_app.
      cbn [quoted_texts_from].
      rewrite Ascii.eqb_refl, (text_until_quote_name _ _ Hx).
      rewrite strip_prefix_app.
      f_equal. apply IH; try assumption. simpl in *. lia.
Qed.

Lemma defineDeps_length E tail :
  tail <> EmptyString -> length E < String.length (defineDeps E +:+ tail).
Proof.
  intros Ht. induction E as [|x E IH].
  - destruct tail; [congruence | simpl; lia].
  - destruct E as [|y E].
    + change (defineDeps [x]) with (quote_name x).
      rewrite quote_name_app. cbn [String.length length].
      rewrite length_append. cbn [String.length]. lia.
    + rewrite defineDeps_cons2, !append_assoc, quote_name_app.
      cbn [String.length]. rewrite length_append. cbn [String.length].
      rewrite length_append. cbn [String.length length] in *. lia.
Qed.


Lemma getRequire_parts (E : list string) :
  getRequire E =
    banner_head +:+ defineDeps E +:+ banner_middle +:+ defineDeps E +:+
    banner_tail.
Proof. reflexivity. Qed.


Lemma after_list_marker (rest : string) :
  after_marker "const defineDepsList = [" (banner_head +:+ rest) = Some rest.
Proof. reflexivity. Qed.

Lemma quoted_texts_getRequire (E : list string) :
  Forall (fun x => has_quote x = false) E ->
  quoted_texts (getRequire E) = E.
Proof.
  intros HE. unfold quoted_texts, quoted_texts_after.
  rewrite getRequire_parts, after_list_marker.
  apply quoted_texts_defineDeps.
  - exact HE.
  - apply defineDeps_length. discriminate.
  - reflexivity.
  - intros r Hr. discriminate.
Qed.

(** Reading the banner as JavaScript. *)
















End Codegen.



(** ** The merge of the footer *)

Section FooterMerge.

Lemma lookup_own_snoc key k p (ps : list (string * Property)) :
  lookup_own key (ps ++ [(k, p)]) =
    match lookup_own key ps with
    | Some q => Some q
    | None => if String.eqb k key then Some p else None
    end.
Proof.
  induction ps as [|[k0 q] ps IH]; cbn; [reflexivity|].
  destruct (String.eqb k0 key); [reflexivity | exact IH].
Qed.

Lemma lookup_own_names key (ps : list (string * Property)) :
  In key (map fst ps) <-> is_Some (lookup_own key ps).
Proof.
  induction ps as [|[k q] ps IH]; cbn.
  - split; [tauto | intros [? ?]; discriminate].
  - destruct (String.eqb_spec k key) as [->|Hne].
    + split; [eauto | tauto].
    + rewrite <- IH. tauto.
Qed.

Lemma hasOwnProperty_object (h : Heap) l o key :
  h !! l = Some o ->
  hasOwnProperty h (VObject l) key =
    Normal (bool_decide (is_Some (lookup_own key (own o)))).
Proof. intros Hl. cbn. now rewrite Hl. Qed.

(** When the two names denote one object every key is already there:
    the loop changes nothing. *)
Lemma cp_loop_present (h : Heap) lt o from except keys :
  h !! lt = Some o ->
  (forall key, In key keys -> is_Some (lookup_own key (own o))) ->
  cp_loop keys (VObject lt) from except h = (Normal tt, h).
Proof.
  intros Hl. induction keys as [|key keys IH]; intros Hall; [reflexivity|].
  cbn [cp_loop]. rewrite (hasOwnProperty_object h lt o key Hl).
  rewrite bool_decide_eq_true_2 by (apply Hall; now left).
  cbn. apply IH. intros k Hk. apply Hall. now right.
Qed.

(** The loop on two different objects. *)
Lemma cp_loop_distinct lt lf (ofrom : JSObject) keys :
  lt <> lf ->
  forall (h : Heap) (o : JSObject),
  h !! lt = Some o ->
  h !! lf = Some ofrom ->
  extensible o = true ->
  exists o',
    cp_loop keys (VObject lt) lf VUndefined h = (Normal tt, <[lt := o']> h) /\
    extensible o' = true /\
    (forall k p, lookup_own k (own o) = Some p ->
                 lookup_own k (own o') = Some p) /\
    (forall k, lookup_own k (own o) = None -> In k keys ->
               lookup_own k (own o') =
                 Some (forwarding lf k (enumerable_of h lf k))) /\
    (forall k, lookup_own k (own o) = None -> ~ In k keys ->
               lookup_own k (own o') = None).
Proof.
  intros Hne. induction keys as [|key keys IH]; intros h o Hlt Hlf Hext.
  - exists o. cbn. rewrite insert_id by assumption.
    repeat split; auto. intros k _ [].
  - cbn [cp_loop]. rewrite (hasOwnProperty_object h lt o key Hlt).
    destruct (lookup_own key (own o)) as [pk|] eqn:Hk.
    + rewrite bool_decide_eq_true_2 by eauto. cbn.
      destruct (IH h o Hlt Hlf Hext) as (o' & Hrun & He & Hkeep & Hadd & Hno).
      exists o'. repeat split; try assumption.
      * intros k Hnone [<-|Hin]; [congruence | now apply Hadd].
      * intros k Hnone Hnot. apply Hno; [assumption|]. cbn in Hnot. tauto.
    + rewrite bool_decide_eq_false_2 by (intros [? ?]; discriminate). cbn.
      rewrite Hlt, Hk, Hext.
      set (o1 := {| own := own o ++
                      [(key, {| slot := AccessorSlot (Some (ForwardTo lf key));
                                enumerable := enumerable_of h lf key;
                                configurable := false |})];
                    extensible := true;
                    prototype := prototype o |}).
      assert (Hlt1 : <[lt := o1]> h !! lt = Some o1)
        by apply lookup_insert_eq.
      assert (Hlf1 : <[lt := o1]> h !! lf = Some ofrom)
        by (rewrite lookup_insert_ne; assumption).
      destruct (IH (<[lt := o1]> h) o1 Hlt1 Hlf1 eq_refl)
        as (o' & Hrun & He & Hkeep & Hadd & Hno).
      rewrite insert_insert_eq in Hrun.
      assert (Henum : forall k, enumerable_of (<[lt := o1]> h) lf k =
                                enumerable_of h lf k).
      { intros k. unfold enumerable_of. now rewrite Hlf1, Hlf. }
      exists o'. split; [exact Hrun|]. split; [exact He|].
      split; [|split].
      * intros k p Hp. apply Hkeep. subst o1. cbn.
        now rewrite lookup_own_snoc, Hp.
      * intros k Hnone Hin.
        destruct (String.eqb_spec key k) as [<-|Hkk].
        -- apply Hkeep. subst o1. cbn.
           rewrite lookup_own_snoc, Hk, String.eqb_refl. reflexivity.
        -- rewrite <- Henum. apply Hadd.
           ++ subst o1. cbn. rewrite lookup_own_snoc, Hnone.
              now destruct (String.eqb_spec key k).
           ++ destruct Hin; [contradiction | assumption].
      * intros k Hnone Hnot. apply Hno.
        -- subst o1. cbn. rewrite lookup_own_snoc, Hnone.
           destruct (String.eqb_spec key k) as [<-|?]; [|reflexivity].
           exfalso. apply Hnot. now left.
        -- intros Hin. apply Hnot. now right.
Qed.

Lemma own_property_insert (h : Heap) l o key :
  own_property (<[l := o]> h) l key = lookup_own key (own o).
Proof. unfold own_property. now rewrite lookup_insert_eq. Qed.

(** C9: run on the module-exports object [lt] and the bare exports
    object [lf], the merge of the footer returns [lt]; every key [lt]
    already had keeps its property, also when [lf] has that key; every
    other own key of [lf] becomes on [lt] an accessor with the
    enumerability it has on [lf] whose getter reads [lf\[key\]] when it
    is called, so that a later read of the key on [lt] is a read of it
    on [lf] at that time; nothing else is added, and the merge leaves
    [lf] as it was. *)
Theorem C9_footer_merge (h : Heap) (lt lf : loc) (oto ofrom : JSObject) :
  h !! lt = Some oto ->
  h !! lf = Some ofrom ->
  extensible oto = true ->
  fst (footer_merge (VObject lt) (VObject lf) h) = Normal (VObject lt) /\
  (forall key p,
     own_property h lt key = Some p ->
     own_property (snd (footer_merge (VObject lt) (VObject lf) h)) lt key
       = Some p) /\
  (forall key p,
     own_property h lf key = Some p ->
     own_property h lt key = None ->
     own_property (snd (footer_merge (VObject lt) (VObject lf) h)) lt key
       = Some (forwarding lf key (enumerable p))) /\
  (forall key,
     own_property h lf key = None ->
     own_property (snd (footer_merge (VObject lt) (VObject lf) h)) lt key
       = own_property h lt key) /\
  snd (footer_merge (VObject lt) (VObject lf) h) !! lf = Some ofrom /\
  (forall key enum fuel user (later : Heap),
     own_property later lt key = Some (forwarding lf key enum) ->
     Get (Datatypes.S fuel) user later lt key = Get fuel user later lf key).
Proof.
  intros Hlt Hlf Hext.
  assert (Hlast : forall key enum fuel user (later : Heap),
     own_property later lt key = Some (forwarding lf key enum) ->
     Get (Datatypes.S fuel) user later lt key = Get fuel user later lf key).
  { intros key enum fuel user later Hp. unfold own_property in Hp.
    cbn [Get]. destruct (later !! lt) as [o|]; [|discriminate].
    now rewrite Hp. }
  unfold footer_merge, __cp.
  change (typeof (VObject lt)) with "object".
  change (typeof (VObject lf)) with "object".
  change (truthy (VObject lf)) with true.
  change (String.eqb "object" "object") with true.
  change (String.eqb "object" "function") with false.
  cbn [andb orb]. unfold getOwnPropertyNames. rewrite Hlf.
  destruct (Nat.eqb_spec lt lf) as [<-|Hne].
  - assert (oto = ofrom) by congruence. subst ofrom.
    rewrite (cp_loop_present h lt oto lt VUndefined (map fst (own oto)) Hlt)
      by (intros key; apply lookup_own_names).
    cbv beta iota. cbn [fst snd]. split; [reflexivity|]. split; [auto|].
    split; [intros; congruence|]. split; [reflexivity|].
    split; [assumption | exact Hlast].
  - destruct (cp_loop_distinct lt lf ofrom (map fst (own ofrom)) Hne
                h oto Hlt Hlf Hext)
      as (o' & Hrun & He & Hkeep & Hadd & Hno).
    rewrite Hrun. cbv beta iota. cbn [fst snd]. split; [reflexivity|].
    split; [|split; [|split; [|split; [|exact Hlast]]]].
    + intros key p Hp. rewrite own_property_insert.
      apply Hkeep. unfold own_property in Hp. now rewrite Hlt in Hp.
    + intros key p Hp Hnone. rewrite own_property_insert.
      unfold own_property in Hp, Hnone. rewrite Hlf in Hp. rewrite Hlt in Hnone.
      rewrite (Hadd key Hnone) by (apply lookup_own_names; eauto).
      unfold enumerable_of. now rewrite Hlf, Hp.
    + intros key Hp. rewrite own_property_insert.
      unfold own_property in Hp |- *. rewrite Hlf in Hp. rewrite Hlt.
      destruct (lookup_own key (own oto)) as [q|] eqn:Hq.
      * now apply Hkeep.
      * apply Hno; [assumption|]. intros Hin.
        apply lookup_own_names in Hin as [? Hin]. congruence.
    + now rewrite lookup_insert_ne.
Qed.

End FooterMerge.

(** ** Runs on concrete inputs *)

(** C1, as stated, fails when the engine raises: the first build of an
    instance with both hooks, and a rebuild of an instance that holds a
    handle, call [start] and the engine and then stop; [done] is not
    called and the error is the completion of [build]. *)
Lemma C1_engine_failure_skips_done :
  completion
    (sample_build engine_raises
       (fresh_world (sample_options returning_hooks false)))
    = Throw "build failed" /\
  count_done
    (calls (sample_build engine_raises
              (fresh_world (sample_options returning_hooks false)))) = 0 /\
  completion
    (sample_build engine_raises
       (ready_world (sample_options returning_hooks false) (handle_of 1 [])))
    = Throw "build failed" /\
  calls
    (sample_build engine_raises
       (ready_world (sample_options returning_hooks false) (handle_of 1 [])))
    = [CallHookStart; CallRebuild (handle_of 1 [])].
Proof. repeat split; vm_compute; reflexivity. Qed.

Lemma C1_done_hook_witness :
  count_done
    (calls (sample_build (engine_gives (handle_of 1 [out_a]))
              (fresh_world (sample_options returning_hooks true)))) = 1 /\
  count_done
    (calls (sample_build engine_raises
              (fresh_world (sample_options returning_hooks true)))) = 0.
Proof.
  pose proof (@C1_done_hook_only_after_success posix MemStore false
                (engine_gives (handle_of 1 [out_a]))
                (fresh_world (sample_options returning_hooks true))
                (fun _ => Normal tt)
                ltac:(vm_compute; reflexivity) eq_refl) as [_ Hok].
  pose proof (@C1_done_hook_only_after_success posix MemStore false
                engine_raises
                (fresh_world (sample_options returning_hooks true))
                (fun _ => Normal tt)
                ltac:(vm_compute; reflexivity) eq_refl) as [Hfail _].
  split.
  - apply (Hok (Some (handle_of 1 [out_a]))); vm_compute; reflexivity.
  - apply (Hfail "build failed"). vm_compute; reflexivity.
Defined.

Lemma C2_handle_witness :
  result
    (this (world (sample_build engine_raises
                    (fresh_world (sample_options returning_hooks false)))))
    = None /\
  result
    (this (world (sample_build engine_raises
                    (ready_world (sample_options returning_hooks false)
                       (handle_of 1 [])))))
    = Some (handle_of 1 []).
Proof.
  split.
  - apply (proj1 (@C2_handle_updated_only_on_success posix MemStore false
                    engine_raises
                    (fresh_world (sample_options returning_hooks false))
                    ltac:(vm_compute; reflexivity)) "build failed").
    vm_compute; reflexivity.
  - apply (proj1 (@C2_handle_updated_only_on_success posix MemStore false
                    engine_raises
                    (ready_world (sample_options returning_hooks false)
                       (handle_of 1 []))
                    ltac:(vm_compute; reflexivity)) "build failed").
    vm_compute; reflexivity.
Defined.

(** C4, as stated, fails for an artifact two directories below an
    existing one: for [/a/b/c.js] on a store that holds only [/], the
    one directory call is [mkdirSync("/a/b")]; it raises, [/a] and
    [/a/b] are not created and the artifact is not written. *)
Lemma C4_nested_parent_not_created :
  completion
    (sample_build (engine_gives (handle_of 1 [nested_c]))
       (fresh_world (sample_options returning_hooks true)))
    = Throw "ENOENT" /\
  adapter_calls
    (calls (sample_build (engine_gives (handle_of 1 [nested_c]))
              (fresh_world (sample_options returning_hooks true))))
    = [CallExistsSync "/a/b"; CallMkdirSync "/a/b"] /\
  mem_exists "/a"
    (store (world (sample_build (engine_gives (handle_of 1 [nested_c]))
                     (fresh_world (sample_options returning_hooks true)))))
    = false /\
  mem_exists "/a/b/c.js"
    (store (world (sample_build (engine_gives (handle_of 1 [nested_c]))
                     (fresh_world (sample_options returning_hooks true)))))
    = false.
Proof. repeat split; vm_compute; reflexivity. Qed.

Lemma C4_adapter_writes_witness :
  adapter_calls
    (calls (sample_build (engine_gives (handle_of 1 [out_a]))
              (fresh_world (sample_options returning_hooks true))))
    = [CallExistsSync "/out"; CallMkdirSync "/out";
       CallWriteFileSync "/out/a.js" "..."] /\
  adapter_calls
    (calls (sample_build engine_raises
              (fresh_world (sample_options returning_hooks true)))) = [].
Proof.
  pose proof (@C4_adapter_writes posix MemStore false
                (engine_gives (handle_of 1 [out_a]))
                (fresh_world (sample_options returning_hooks true))
                ltac:(vm_compute; reflexivity) eq_refl) as [_ Hok].
  pose proof (@C4_adapter_writes posix MemStore false engine_raises
                (fresh_world (sample_options returning_hooks true))
                ltac:(vm_compute; reflexivity) eq_refl) as [Hfail _].
  split.
  - destruct (Hok (handle_of 1 [out_a]) [out_a]) as (Hcalls & _ & _);
      [vm_compute; reflexivity | reflexivity |].
    etransitivity; [exact Hcalls | vm_compute; reflexivity].
  - apply (Hfail "build failed"). vm_compute; reflexivity.
Defined.

(** C6 fails on the code: with no [external] in the caller's options
    the engine is asked for no externals at all, on the node platform
    and on the browser platform, where the claim says the lists
    starting with [esbuild]. *)
Lemma C6_default_externals_empty :
  requested_externals
    (calls (sample_build (engine_gives (handle_of 1 []))
              (fresh_world minimal_options))) = Some [] /\
  requested_externals
    (calls (sample_build (engine_gives (handle_of 1 []))
              (fresh_world minimal_options)))
    <> Some ["esbuild"; "fsevents"] /\
  bo_external
    (@full_request posix MemStore (engine_gives (handle_of 1 []))
       {| options := browser_options; result := None; watcher := None;
          firstBuildPass := false |}) = Some [].
Proof.
  split; [vm_compute; reflexivity|]. split; [|reflexivity].
  vm_compute. discriminate.
Qed.

(** C7, as stated, fails on its second half: of two events 100 ms
    apart the first triggers the one rebuild, which gets the engine's
    answer of that moment (handle 2); the answer after the last event
    (handle 3) is never asked for. *)
Lemma C7_rebuild_uses_first_event :
  completion
    (@watcher_events posix MemStore installed_debounce
       [(0%Z, engine_gives (handle_of 2 []));
        (100%Z, engine_gives (handle_of 3 []))]
       (ready_world (sample_options returning_hooks false) (handle_of 1 [])))
    = Normal 1 /\
  result
    (this (world
       (@watcher_events posix MemStore installed_debounce
          [(0%Z, engine_gives (handle_of 2 []));
           (100%Z, engine_gives (handle_of 3 []))]
          (ready_world (sample_options returning_hooks false)
             (handle_of 1 [])))))
    = Some (handle_of 2 []) /\
  calls
    (@watcher_events posix MemStore installed_debounce
       [(0%Z, engine_gives (handle_of 2 []));
        (100%Z, engine_gives (handle_of 3 []))]
       (ready_world (sample_options returning_hooks false) (handle_of 1 [])))
    = [CallHookStart; CallRebuild (handle_of 1 []);
       CallHookDone (Some (handle_of 2 []))].
Proof. repeat split; vm_compute; reflexivity. Qed.

Lemma C7_leading_event_witness :
  completion
    (@watcher_events posix MemStore installed_debounce
       [(0%Z, engine_gives (handle_of 2 []));
        (100%Z, engine_gives (handle_of 3 []));
        (499%Z, engine_gives (handle_of 3 []))]
       (ready_world (sample_options returning_hooks false) (handle_of 1 [])))
    = Normal 1.
Proof.
  rewrite (@C7_one_build_at_the_leading_event posix MemStore 0%Z
             (engine_gives (handle_of 2 []))
             [(100%Z, engine_gives (handle_of 3 []));
              (499%Z, engine_gives (handle_of 3 []))]
             (ready_world (sample_options returning_hooks false)
                (handle_of 1 []))
             {| watched := []; on_all := {| timeout := None |} |}).
  - reflexivity.
  - reflexivity.
  - reflexivity.
  - reflexivity.
  - repeat constructor.
Defined.

Lemma C5_pipeline_witness :
  build_plugins browser_options =
    [pluginNodePolyfill; pluginGlobalExternal; pluginEntry;
     rollupProxyPlugin [watchPlugin]; pluginBareModule; pluginHttp;
     pluginUnpkg] /\
  resolve_chain two_resolvers (build_plugins browser_options) "lodash" =
    Some (pluginBareModule, Resolved "/node_modules/lodash" "file").
Proof.
  destruct (@C5_pipeline_order posix MemStore browser_options engine_raises)
    as (Horder & _ & Hfirst).
  split; [exact Horder|].
  destruct (Hfirst two_resolvers "lodash" 4 6 pluginBareModule pluginUnpkg)
    as (k & winner & Hk & Hl & _ & Hw & Hr & _);
    [reflexivity | reflexivity | repeat constructor
    | discriminate | discriminate |].
  rewrite Hr. f_equal.
  destruct k as [|[|[|[|[|k]]]]]; cbn in Hl;
    try (injection Hl as <-; first [reflexivity
                                   | exfalso; apply Hw; reflexivity]).
  exfalso. do 4 apply le_S_n in Hk. inversion Hk.
Defined.

Lemma C9_footer_merge_witness :
  own_property (snd (footer_merge (VObject 1) (VObject 2) footer_heap)) 1 "a"
    = Some (data (VNumber 1)) /\
  own_property (snd (footer_merge (VObject 1) (VObject 2) footer_heap)) 1 "b"
    = Some (forwarding 2 "b" false) /\
  Get 2 (fun _ _ => Normal (VString "lazy"))
      (snd (footer_merge (VObject 1) (VObject 2) footer_heap)) 1 "b"
    = Some (Normal (VString "lazy")).
Proof.
  destruct (C9_footer_merge footer_heap 1 2 module_exports_object
              exports_object eq_refl eq_refl eq_refl)
    as (_ & Hkeep & Hadd & _ & _ & Hlazy).
  split; [|split].
  - apply Hkeep. reflexivity.
  - apply (Hadd "b" {| slot := AccessorSlot (Some (UserGetter 7));
                       enumerable := false; configurable := true |});
      reflexivity.
  - rewrite (Hlazy "b" false 1 _ _
               (Hadd "b" {| slot := AccessorSlot (Some (UserGetter 7));
                            enumerable := false; configurable := true |}
                  eq_refl eq_refl)).
    vm_compute. reflexivity.
Defined.

(** * Further facts about the orchestrator *)

(** ** Normalisation *)

Section Normalisation.
Context `{Host} {S : Type}.

Lemma ensureAbsolutePath_absolute (filepath cwd : string) :
  join_keeps_absolute _ ->
  path_isAbsolute cwd = true ->
  path_isAbsolute (ensureAbsolutePath filepath cwd) = true.
Proof.
  intros Hlaw Hcwd. unfold ensureAbsolutePath.
  destruct (path_isAbsolute filepath) eqn:Hf; [exact Hf|].
  now apply Hlaw.
Qed.

Lemma ensureAbsolutePath_again (filepath cwd cwd' : string) :
  join_keeps_absolute _ ->
  path_isAbsolute cwd = true ->
  ensureAbsolutePath (ensureAbsolutePath filepath cwd) cwd' =
    ensureAbsolutePath filepath cwd.
Proof.
  intros Hlaw Hcwd. unfold ensureAbsolutePath at 1.
  now rewrite (ensureAbsolutePath_absolute filepath cwd Hlaw Hcwd).
Qed.

(** X1: [ensureAbsolutePath] returns an absolute path whenever the
    working directory is absolute, leaves an absolute path as it is
    whatever the working directory, and so resolving its result again,
    against any directory, changes nothing. *)
Theorem ensureAbsolutePath_stable (filepath cwd cwd' : string) :
  join_keeps_absolute _ ->
  path_isAbsolute cwd = true ->
  path_isAbsolute (ensureAbsolutePath filepath cwd) = true /\
  (path_isAbsolute filepath = true ->
   ensureAbsolutePath filepath cwd' = filepath) /\
  ensureAbsolutePath (ensureAbsolutePath filepath cwd) cwd' =
    ensureAbsolutePath filepath cwd.
Proof.
  intros Hlaw Hcwd.
  pose proof (ensureAbsolutePath_absolute filepath cwd Hlaw Hcwd) as Habs.
  split; [exact Habs|]. split.
  - intros Hf. unfold ensureAbsolutePath. now rewrite Hf.
  - now apply ensureAbsolutePath_again.
Qed.

(** X2: normalising an already normalised options object gives that
    object again, in any environment, provided the working directory
    used the first time is absolute. *)
Theorem normalizeOptions_idempotent (env env' : Env S)
    (options : CompilerOptions S) :
  join_keeps_absolute _ ->
  path_isAbsolute (nullish (co_cwd options) (process_cwd env)) = true ->
  normalizeOptions env' (as_sparse (normalizeOptions env options)) =
    normalizeOptions env options.
Proof.
  intros Hlaw Hcwd. unfold normalizeOptions, as_sparse. cbn.
  set (d := nullish (co_cwd options) (process_cwd env)) in *.
  rewrite (ensureAbsolutePath_again (co_input options) d d Hlaw Hcwd).
  rewrite (ensureAbsolutePath_again (co_output options) d d Hlaw Hcwd).
  reflexivity.
Qed.

Lemma spread_idempotent {A} (a b : option A) :
  spread a (spread a b) = spread a b.
Proof. now destruct b, a. Qed.

(** X3: [normalizeEsbuildOptions] is idempotent, keeps every member the
    caller gave, and its result always has [logLevel], [external],
    [platform], [plugins] and [bundle]. *)
Theorem normalizeEsbuildOptions_idempotent (o : BuildOptions) :
  normalizeEsbuildOptions (normalizeEsbuildOptions o) =
    normalizeEsbuildOptions o /\
  (forall v, bo_external o = Some v ->
     bo_external (normalizeEsbuildOptions o) = Some v) /\
  (forall v, bo_plugins o = Some v ->
     bo_plugins (normalizeEsbuildOptions o) = Some v) /\
  (forall v, bo_platform o = Some v ->
     bo_platform (normalizeEsbuildOptions o) = Some v) /\
  is_Some (bo_logLevel (normalizeEsbuildOptions o)) /\
  is_Some (bo_external (normalizeEsbuildOptions o)) /\
  is_Some (bo_platform (normalizeEsbuildOptions o)) /\
  is_Some (bo_plugins (normalizeEsbuildOptions o)) /\
  bo_bundle (normalizeEsbuildOptions o) =
    Some (nullish (bo_bundle o) true).
Proof.
  split.
  - unfold normalizeEsbuildOptions. cbn [bo_entryPoints bo_incremental
      bo_logLevel bo_write bo_outfile bo_format bo_minify bo_globalName
      bo_define bo_external bo_platform bo_banner bo_footer bo_inject
      bo_plugins bo_bundle]. now rewrite !spread_idempotent.
  - destruct o; cbn in *. repeat split; intros; subst; cbn; eauto;
      match goal with
      | |- is_Some (spread _ ?x) => destruct x; cbn; eauto
      | |- spread _ ?x = _ => destruct x; reflexivity
      end.
Qed.

End Normalisation.

(** The POSIX host satisfies [join_keeps_absolute]. *)

Lemma posix_normalize_absolute (p : string) :
  starts_with_slash p = true -> starts_with_slash (posix_normalize p) = true.
Proof.
  intros Hp. destruct p as [|c p]; [discriminate|].
  unfold posix_normalize.
  change (String.eqb (String c p) "") with false. cbv beta iota.
  rewrite Hp.
  destruct (String.eqb _ ""); [reflexivity|].
  destruct (ends_with_slash _); reflexivity.
Qed.

Lemma posix_join_keeps_absolute : join_keeps_absolute posix.
Proof.
  intros a b Ha. cbn in *. destruct a as [|c a]; [discriminate|].
  unfold posix_join.
  assert (Hj : exists rest,
             String.concat "/"
               (filter (fun s => negb (String.eqb s "")) [String c a; b])
             = String c rest).
  { rewrite filter_cons. cbn [String.eqb negb].
    destruct (decide (Is_true true)) as [_|Hn]; [|exfalso; apply Hn; exact I].
    rewrite filter_cons, filter_nil.
    destruct (decide _); cbn; eauto. }
  destruct Hj as [rest ->].
  change (String.eqb (String c rest) "") with false. cbv beta iota.
  now apply posix_normalize_absolute.
Qed.

Lemma ensureAbsolutePath_stable_witness :
  @ensureAbsolutePath posix "src/../a.ts" "/cwd" = "/cwd/a.ts" /\
  @path_isAbsolute posix (@ensureAbsolutePath posix "src/../a.ts" "/cwd")
    = true /\
  @ensureAbsolutePath posix (@ensureAbsolutePath posix "src/../a.ts" "/cwd")
    "/elsewhere" = @ensureAbsolutePath posix "src/../a.ts" "/cwd".
Proof.
  destruct (@ensureAbsolutePath_stable posix "src/../a.ts" "/cwd"
              "/elsewhere" posix_join_keeps_absolute eq_refl)
    as (Habs & _ & Hagain).
  split; [vm_compute; reflexivity|]. split; [exact Habs | exact Hagain].
Defined.

Lemma normalizeOptions_idempotent_witness :
  @normalizeOptions posix MemStore (engine_gives (handle_of 1 []))
    (as_sparse (@normalizeOptions posix MemStore engine_raises
                  minimal_options))
  = @normalizeOptions posix MemStore engine_raises minimal_options.
Proof.
  apply (@normalizeOptions_idempotent posix MemStore engine_raises
           (engine_gives (handle_of 1 [])) minimal_options
           posix_join_keeps_absolute eq_refl).
Defined.

(** ** One call of [build]: edges *)

Section BuildEdges.
Context `{Host} {S : Type}.
Implicit Types (w : World S) (env : Env S) (c : Compiler S).

Lemma start_hook_cases c :
  start_returns c \/
  exists h f e, hooks (options c) = Some h /\ start h = Some f /\
                f tt = Throw e.
Proof.
  unfold start_returns.
  destruct (hooks (options c)) as [h|] eqn:Hh; [|now left].
  destruct (start h) as [f|] eqn:Hf; [|now left].
  destruct (f tt) as [[]|e] eqn:He; [now left|].
  right. exists h, f, e. auto.
Qed.

Lemma artifacts_without_memfs (o : Options S) r :
  memfs o = false -> artifacts o r = [].
Proof. unfold artifacts. now intros ->. Qed.

(** X4: with [memfs] off [build] asks the engine itself to write
    ([write: true]) and makes no call to the adapter, whatever the
    hooks and the engine answer and whatever the handle carries. *)
Theorem build_without_memfs watch env w :
  memfs (options (this w)) = false ->
  bo_write (full_request env (this w)) = Some true /\
  adapter_calls (calls (build watch env w)) = [].
Proof.
  intros Hm. split; [cbn; now rewrite Hm|].
  destruct (start_hook_cases (this w)) as [Hs|(h & f & e & Hh & Hf & He)].
  - rewrite build_run by assumption.
    destruct (engine_reply env (this w)) as [r|e]; cbn [calls].
    + rewrite write_outputs_nothing
        by (cbn; now apply artifacts_without_memfs).
      cbn [calls completion].
      now rewrite !adapter_calls_app, adapter_calls_start,
        adapter_calls_engine, adapter_calls_done.
    + now rewrite adapter_calls_app, adapter_calls_start,
        adapter_calls_engine.
  - now rewrite (build_start_throws _ _ _ _ _ _ Hh Hf He).
Qed.

(** X5: a platform that is neither [node] nor [browser] gets the
    universal-module banner and footer of the server platform together
    with the node shim that the browser platform injects, [__NODE__]
    defined as [false], and neither browser plugin. *)
Theorem request_for_other_platform env (o : Options S)
    (E : list string) (G : string) :
  platform o <> "node" ->
  platform o <> "browser" ->
  external o = Some E ->
  globalName o = Some G ->
  let request := normalizeEsbuildOptions (build_request env o) in
  bo_banner request = Some (getRequire E) /\
  bo_footer request = Some (getFooter G) /\
  bo_inject request = Some [path_join [__dirname env; "../shim/node.js"]] /\
  (exists rest, bo_define request = Some (("__NODE__", "false") :: rest)) /\
  (exists rest, bo_plugins request = Some (pluginEntry :: rest) /\
                ~ In pluginNodePolyfill rest /\
                ~ In pluginGlobalExternal rest).
Proof.
  intros Hn Hb HE HG.
  apply String.eqb_neq in Hn. apply String.eqb_neq in Hb.
  cbn. unfold build_plugins, and_plugin. rewrite Hn, Hb, HE, HG. cbn.
  repeat split; eauto.
  eexists. split; [reflexivity|].
  destruct (http o), (unpkg o), (memfs o); cbn; intuition discriminate.
Qed.

(** X6: when the [start] hook raises, [build] stops there: the hook is
    the only outside call, the error is the completion, and the
    instance and the store are what they were; in particular
    [firstBuildPass] is not set, so that a watcher that was gated stays
    gated. *)
Theorem build_start_hook_raises watch env w h f e :
  hooks (options (this w)) = Some h ->
  start h = Some f ->
  f tt = Throw e ->
  completion (build watch env w) = Throw e /\
  calls (build watch env w) = [CallHookStart] /\
  world (build watch env w) = w /\
  (firstBuildPass (this w) = false ->
   forall policy events,
     completion (watcher_events policy events (world (build watch env w)))
       = Normal 0).
Proof.
  intros Hh Hf He. rewrite (build_start_throws _ _ _ _ _ _ Hh Hf He).
  cbn [completion calls world]. repeat split. intros Hflag policy events.
  now destruct (watcher_events_gated policy events w Hflag) as [-> _].
Qed.

(** X7: when the engine call has succeeded and an adapter call raises,
    [build] completes with that error and the [done] hook is not
    called; yet the new handle is stored, [firstBuildPass] is set, and
    what the adapter wrote before the failure stays written. *)
Theorem build_write_failure watch env w r e :
  start_returns (this w) ->
  engine_reply env (this w) = Normal r ->
  completion (write_outputs {| this := with_result r (this w);
                               store := store w |}) = Throw e ->
  completion (build watch env w) = Throw e /\
  count_done (calls (build watch env w)) = 0 /\
  result (this (world (build watch env w))) = r /\
  firstBuildPass (this (world (build watch env w))) = true /\
  store (world (build watch env w)) =
    store (world (write_outputs {| this := with_result r (this w);
                                   store := store w |})).
Proof.
  intros Hs Hr Hw. rewrite build_run, Hr by assumption.
  cbn [completion calls world this store result firstBuildPass
       with_firstBuildPass with_result].
  rewrite Hw. repeat split.
  rewrite !count_done_app, count_done_start, count_done_engine,
    count_done_writes. reflexivity.
Qed.

Lemma build_calls_shape watch env w :
  start_returns (this w) ->
  exists rest,
    calls (build watch env w) =
      start_calls (this w) ++ engine_calls env (this w) ++ rest /\
    Forall (fun ev => is_adapter_call ev = true \/ is_done_call ev = true)
      rest.
Proof.
  intros Hs. rewrite build_run by assumption.
  destruct (engine_reply env (this w)) as [r|e]; cbn [calls].
  - eexists. split; [reflexivity|]. apply Forall_app. split.
    + destruct (write_outputs_run {| this := with_result r (this w);
                                     store := store w |}) as [_ ->].
      eapply List.Forall_impl; [|apply described_calls_are_adapter_calls].
      cbn. tauto.
    + destruct (completion _); [|constructor].
      unfold done_calls. destruct (done_hook _); [|constructor].
      constructor; [now right | constructor].
  - exists []. split; [now rewrite app_nil_r | constructor].
Qed.

(** X8: once a first build has given a handle that can rebuild, the
    next [build] rebuilds that handle and sends no full-build request,
    whatever the engine answers then. *)
Theorem build_then_rebuild watch env w r :
  start_returns (this w) ->
  result (this w) = None ->
  engine_build env (full_request env (this w)) = Normal r ->
  rebuild r = true ->
  forall watch' env',
    In (CallRebuild r)
       (calls (build watch' env' (world (build watch env w)))) /\
    List.filter is_full_build_call
      (calls (build watch' env' (world (build watch env w)))) = [].
Proof.
  intros Hs Hnone Hr Hreb watch' env'.
  set (w' := world (build watch env w)).
  assert (Hres : result (this w') = Some r).
  { subst w'. rewrite build_run by assumption.
    unfold engine_reply. now rewrite Hnone, Hr. }
  assert (Hs' : start_returns (this w')).
  { eapply start_returns_options; [|exact Hs]. apply build_keeps. }
  destruct (build_calls_shape watch' env' w' Hs') as (rest & -> & Hrest).
  assert (Hcalls : engine_calls env' (this w') = [CallRebuild r]).
  { unfold engine_calls. now rewrite Hres, Hreb. }
  rewrite Hcalls. split.
  - apply in_or_app. right. now left.
  - rewrite !List.filter_app. cbn.
    rewrite (filter_none _ (start_calls _)), (filter_none _ rest);
      [reflexivity| |].
    + eapply List.Forall_impl; [|exact Hrest].
      intros [] [Ha|Hd]; cbn in *; congruence.
    + unfold start_calls. destruct (hooks _) as [h|]; [|constructor].
      destruct (start h); repeat constructor.
Qed.

(** X9: on a handle without a [rebuild] member [build] makes no engine
    call and no adapter call, forgets the handle, and calls the [done]
    hook with [undefined]. *)
Theorem build_on_handle_without_rebuild watch env w h :
  start_returns (this w) ->
  result (this w) = Some h ->
  rebuild h = false ->
  calls (build watch env w) =
    start_calls (this w) ++ done_calls (this w) None /\
  completion (build watch env w) = done_completion (this w) None /\
  result (this (world (build watch env w))) = None /\
  store (world (build watch env w)) = store w.
Proof.
  intros Hs Hres Hreb.
  assert (Hr : engine_reply env (this w) = Normal None).
  { unfold engine_reply. now rewrite Hres, Hreb. }
  assert (Hc : engine_calls env (this w) = []).
  { unfold engine_calls. now rewrite Hres, Hreb. }
  rewrite build_run, Hr, Hc by assumption.
  rewrite write_outputs_nothing
    by (unfold artifacts; cbn; now destruct (memfs _)).
  cbn. repeat split.
Qed.

End BuildEdges.

(** ** The watch callback and sequences of operations *)

Section Sequences.
Context `{Host} {S : Type}.
Implicit Types (w : World S) (env : Env S) (c : Compiler S).

Lemma detached_normal (m : M S unit) w :
  completion (detached m w) = Normal tt /\ world (detached m w) = world (m w).
Proof. unfold detached. now destruct (completion (m w)). Qed.

(** What one watcher event does, for any debouncing. *)
Lemma watcher_event_run policy now env w :
  watcher_event policy now env w =
    match watcher (this w) with
    | None => {| completion := Normal false; world := w; calls := [] |}
    | Some fw =>
        let w1 := {| this := with_watcher
                               (Some {| watched := watched fw;
                                        on_all := snd (policy now (on_all fw)) |})
                               (this w);
                     store := store w |} in
        if fst (policy now (on_all fw)) && firstBuildPass (this w) then
          {| completion := Normal true;
             world := world (build false env w1);
             calls := calls (detached (build false env) w1) |}
        else {| completion := Normal false; world := w1; calls := [] |}
    end.
Proof.
  destruct w as [[o r wt f] st].
  unfold watcher_event, watch_callback, set_watcher, with_watcher.
  unfold mbind, M_bind, bind, ret, get_this, set_this.
  cbn -[detached build]. destruct wt as [fw|]; [|reflexivity].
  cbn -[detached build].
  destruct (policy now (on_all fw)) as [callNow d]. cbn -[detached build].
  destruct callNow; cbn -[detached build]; [|reflexivity].
  destruct f; cbn -[detached build]; [|reflexivity].
  set (w1 := {| this := _; store := st |}).
  destruct (detached_normal (build false env) w1) as [Hc Hw].
  rewrite Hc. cbn -[detached build]. now rewrite Hw, !app_nil_r.
Qed.

(** X10: an event of the watcher never raises to the watcher, whatever
    the build it triggers does; when that build's engine call raises,
    the error ends up as an unhandled rejection, the [done] hook is not
    called, and the handle is what it was. *)
Theorem watcher_event_never_raises policy now env w :
  (exists b, completion (watcher_event policy now env w) = Normal b) /\
  (forall fw e,
     watcher (this w) = Some fw ->
     fst (policy now (on_all fw)) = true ->
     firstBuildPass (this w) = true ->
     start_returns (this w) ->
     engine_reply env (this w) = Throw e ->
     last (calls (watcher_event policy now env w))
       = Some (UnhandledRejection e) /\
     count_done (calls (watcher_event policy now env w)) = 0 /\
     result (this (world (watcher_event policy now env w)))
       = result (this w)).
Proof.
  split.
  - rewrite watcher_event_run. destruct (watcher (this w)); [|eauto].
    cbv zeta. destruct (_ && _); eauto.
  - intros fw e Hw Hp Hf Hs He. rewrite watcher_event_run, Hw. cbv zeta.
    rewrite Hp, Hf. cbn [andb completion world calls].
    set (w1 := {| this := _; store := store w |}).
    assert (Hb : build false env w1 =
                 {| completion := Throw e;
                    world := {| this := with_firstBuildPass true (this w1);
                                store := store w1 |};
                    calls := start_calls (this w1) ++
                             engine_calls env (this w1) |}).
    { rewrite build_run by exact Hs.
      change (engine_reply env (this w1)) with (engine_reply env (this w)).
      now rewrite He. }
    unfold detached. rewrite Hb. cbn [completion world calls this result
      with_firstBuildPass]. split; [apply last_snoc|]. split; [|reflexivity].
    rewrite !count_done_app, count_done_start, count_done_engine.
    reflexivity.
Qed.

Lemma build_flag_monotone watch env w :
  firstBuildPass (this w) = true ->
  firstBuildPass (this (world (build watch env w))) = true.
Proof.
  intros Hf.
  destruct (start_hook_cases (this w)) as [Hs|(h & f & e & Hh & Hf' & He)].
  - now apply build_sets_firstBuildPass.
  - now rewrite (build_start_throws _ _ _ _ _ _ Hh Hf' He).
Qed.

(** What every operation keeps. *)
Lemma run_op_keeps policy (op : Op S) w :
  options (this (world (run_op policy op w))) = options (this w) /\
  (firstBuildPass (this w) = true ->
   firstBuildPass (this (world (run_op policy op w))) = true) /\
  (watcher (this w) = None ->
   watcher (this (world (run_op policy op w))) = None).
Proof.
  destruct op as [watch env|id|now env]; cbn [run_op].
  - destruct (build_keeps watch env w) as [Ho Hw]. rewrite Ho, Hw.
    split; [reflexivity|]. split; [apply build_flag_monotone | auto].
  - unfold addWatchFile, set_watcher.
    unfold mbind, M_bind, bind, ret, get_this, set_this, emit. cbn.
    destruct (watcher (this w)) as [fw|] eqn:Hw; cbn.
    + repeat split; auto. discriminate.
    + now rewrite Hw.
  - unfold bind. rewrite watcher_event_run.
    destruct (watcher (this w)) as [fw|] eqn:Hw; [|cbn; now rewrite Hw].
    cbv zeta. set (w1 := {| this := _; store := store w |}).
    destruct (fst (policy now (on_all fw)) && firstBuildPass (this w));
      cbn [completion world calls ret].
    + destruct (build_keeps false env w1) as [Ho Hk]. rewrite Ho, Hk.
      split; [reflexivity|]. split; [|discriminate].
      intros Hf. apply build_flag_monotone. exact Hf.
    + split; [reflexivity|]. split; [tauto | discriminate].
Qed.

(** X11: whatever sequence of builds, [addWatchFile]s and watcher
    events an instance goes through, with whatever results, its options
    stay the ones it was constructed with, and [firstBuildPass], once
    true, stays true. *)
Theorem options_and_flag_are_kept policy (ops : list (Op S)) : forall w,
  options (this (after_ops policy ops w)) = options (this w) /\
  (firstBuildPass (this w) = true ->
   firstBuildPass (this (after_ops policy ops w)) = true).
Proof.
  induction ops as [|op ops IH]; intros w; [split; auto|].
  cbn [after_ops].
  destruct (run_op_keeps policy op w) as (Ho & Hf & _).
  destruct (IH (world (run_op policy op w))) as [IHo IHf].
  rewrite IHo, Ho. split; auto.
Qed.

Lemma unwatched_op policy (op : Op S) w :
  watcher (this w) = None ->
  is_build_op op = false ->
  run_op policy op w =
    {| completion := Normal tt; world := w; calls := [] |}.
Proof.
  intros Hw Hop. destruct op as [watch env|id|now env]; [discriminate| |].
  - cbn [run_op]. unfold addWatchFile.
    unfold mbind, M_bind, bind, ret, get_this. cbn. now rewrite Hw.
  - cbn [run_op]. unfold bind. rewrite watcher_event_run, Hw. reflexivity.
Qed.

(** X12: an instance constructed without [watch: true] has no watcher
    and never gets one; on it [addWatchFile] and watcher events do
    nothing at all, so that a sequence of operations leaves the world
    and makes the outside calls of its [build] calls alone. *)
Theorem unwatched_instance policy env (o : CompilerOptions S) (st : S)
    (ops : list (Op S)) :
  nullish (co_watch o) false = false ->
  let w := {| this := new_Compiler env o; store := st |} in
  watcher (this (after_ops policy ops w)) = None /\
  after_ops policy ops w = after_ops policy (List.filter is_build_op ops) w /\
  calls_of_ops policy ops w =
    calls_of_ops policy (List.filter is_build_op ops) w.
Proof.
  intros Hwatch w.
  assert (Hw : watcher (this w) = None).
  { subst w. unfold new_Compiler. cbn. now rewrite Hwatch. }
  clearbody w. revert w Hw.
  induction ops as [|op ops IH]; intros w Hw; [repeat split; assumption|].
  cbn [after_ops calls_of_ops List.filter].
  destruct (is_build_op op) eqn:Hop.
  - cbn [after_ops calls_of_ops].
    assert (Hw' : watcher (this (world (run_op policy op w))) = None).
    { pose proof (run_op_keeps policy op w) as (_ & _ & Hk).
      now apply Hk. }
    destruct (IH _ Hw') as (IH1 & IH2 & IH3).
    now rewrite IH1, IH2, IH3.
  - rewrite (unwatched_op policy op w Hw Hop). cbn [world calls app].
    now apply IH.
Qed.

End Sequences.

(** ** The merge of the footer: edges *)

Section FooterEdges.

Lemma footer_merge_objects (h : Heap) (lt lf : loc) (ofrom : JSObject) :
  h !! lf = Some ofrom ->
  footer_merge (VObject lt) (VObject lf) h =
    match cp_loop (map fst (own ofrom)) (VObject lt) lf VUndefined h with
    | (Normal _, h') => (Normal (VObject lt), h')
    | (Throw e, h') => (Throw e, h')
    end.
Proof.
  intros Hlf. unfold footer_merge, __cp.
  change (typeof (VObject lt)) with "object".
  change (typeof (VObject lf)) with "object".
  change (truthy (VObject lf)) with true.
  change (String.eqb "object" "object") with true.
  change (String.eqb "object" "function") with false.
  cbn [andb orb]. unfold getOwnPropertyNames. now rewrite Hlf.
Qed.

Lemma footer_merge_same_object (h : Heap) l o :
  h !! l = Some o ->
  footer_merge (VObject l) (VObject l) h = (Normal (VObject l), h).
Proof.
  intros Hl. rewrite (footer_merge_objects h l l o Hl).
  rewrite (cp_loop_present h l o l VUndefined (map fst (own o)) Hl);
    [reflexivity|].
  intros key. apply lookup_own_names.
Qed.

(** X14: the merge does nothing and does not raise when the two names
    denote one object, as they do unless the bundled code replaced one
    of them (the banner has [var module = { exports }]), extensible or
    not; nor when the bare exports value is anything but an object:
    [null], [undefined], a primitive, or a function. *)
Theorem footer_merge_no_op (h : Heap) :
  (forall l o, h !! l = Some o ->
     footer_merge (VObject l) (VObject l) h = (Normal (VObject l), h)) /\
  (forall to from, (forall l, from <> VObject l) ->
     footer_merge to from h = (Normal to, h)).
Proof.
  split.
  - intros l o Hl. now apply footer_merge_same_object with (o := o).
  - intros to from Hfrom.
    destruct from as [| | | | |l|l]; try (now destruct to);
      exfalso; now apply (Hfrom l).
Qed.

Lemma has_own_decide (h : Heap) l o key :
  h !! l = Some o ->
  bool_decide (is_Some (lookup_own key (own o))) = has_own h l key.
Proof.
  intros Hl. unfold has_own, own_property. rewrite Hl.
  destruct (lookup_own key (own o)).
  - apply bool_decide_eq_true_2. eauto.
  - apply bool_decide_eq_false_2. intros [? ?]. discriminate.
Qed.

Lemma cp_loop_not_extensible (h : Heap) lt lf o keys :
  h !! lt = Some o ->
  extensible o = false ->
  cp_loop keys (VObject lt) lf VUndefined h =
    (if forallb (has_own h lt) keys then Normal tt
     else Throw "TypeError: object is not extensible", h).
Proof.
  intros Hlt Hext. induction keys as [|key keys IH]; [reflexivity|].
  cbn [cp_loop forallb].
  rewrite (hasOwnProperty_object h lt o key Hlt), (has_own_decide h lt o key Hlt).
  destruct (has_own h lt key) eqn:Hk; cbn [negb andb]; [exact IH|].
  change (value_eqb (VString key) VUndefined) with false. cbn [negb].
  unfold defineProperty. rewrite Hlt.
  unfold has_own, own_property in Hk. rewrite Hlt in Hk.
  destruct (lookup_own key (own o)); [discriminate|].
  now rewrite Hext.
Qed.

(** X15: when the module-exports object is not extensible the merge
    never changes the heap: it returns the object when every own key of
    the bare exports object is already on it, and raises a [TypeError]
    as soon as one is missing. *)
Theorem footer_merge_not_extensible (h : Heap) (lt lf : loc)
    (oto ofrom : JSObject) :
  h !! lt = Some oto ->
  h !! lf = Some ofrom ->
  extensible oto = false ->
  footer_merge (VObject lt) (VObject lf) h =
    (if forallb (has_own h lt) (map fst (own ofrom))
     then Normal (VObject lt)
     else Throw "TypeError: object is not extensible", h).
Proof.
  intros Hlt Hlf Hext. rewrite (footer_merge_objects h lt lf ofrom Hlf).
  rewrite (cp_loop_not_extensible h lt lf oto _ Hlt Hext).
  now destruct (forallb _ _).
Qed.

(** X16: merging a second time changes nothing: after the merge every
    own key of the bare exports object is on the module-exports
    object. *)
Theorem footer_merge_idempotent (h : Heap) (lt lf : loc)
    (oto ofrom : JSObject) :
  h !! lt = Some oto ->
  h !! lf = Some ofrom ->
  extensible oto = true ->
  footer_merge (VObject lt) (VObject lf)
    (snd (footer_merge (VObject lt) (VObject lf) h)) =
  (Normal (VObject lt), snd (footer_merge (VObject lt) (VObject lf) h)) /\
  forall key, has_own h lf key = true ->
    has_own (snd (footer_merge (VObject lt) (VObject lf) h)) lt key = true.
Proof.
  intros Hlt Hlf Hext.
  destruct (Nat.eq_dec lt lf) as [<-|Hne].
  - rewrite (footer_merge_same_object h lt oto Hlt). cbn [snd].
    split; [exact (footer_merge_same_object h lt oto Hlt) | auto].
  - rewrite (footer_merge_objects h lt lf ofrom Hlf).
    destruct (cp_loop_distinct lt lf ofrom (map fst (own ofrom)) Hne
                h oto Hlt Hlf Hext)
      as (o' & Hrun & He & Hkeep & Hadd & Hno).
    rewrite Hrun. cbv beta iota. cbn [snd].
    assert (Hall : forall key, In key (map fst (own ofrom)) ->
                               is_Some (lookup_own key (own o'))).
    { intros key Hin. destruct (lookup_own key (own oto)) as [p|] eqn:Hp.
      - rewrite (Hkeep key p Hp). eauto.
      - rewrite (Hadd key Hp Hin). eauto. }
    assert (Hlt1 : <[lt := o']> h !! lt = Some o')
      by apply lookup_insert_eq.
    assert (Hlf1 : <[lt := o']> h !! lf = Some ofrom)
      by (rewrite lookup_insert_ne; assumption).
    split.
    + rewrite (footer_merge_objects _ lt lf ofrom Hlf1).
      now rewrite (cp_loop_present _ lt o' lf VUndefined _ Hlt1 Hall).
    + intros key Hk. unfold has_own in *. rewrite own_property_insert.
      unfold own_property in Hk. rewrite Hlf in Hk.
      destruct (Hall key) as [p ->]; [|reflexivity].
      apply lookup_own_names. destruct (lookup_own key (own ofrom)); eauto.
      discriminate.
Qed.

End FooterEdges.

(** X17: two different external lists whose names hold no single
    quote give different banners. *)
Theorem getRequire_injective (E E' : list string) :
  Forall (fun x => has_quote x = false) E ->
  Forall (fun x => has_quote x = false) E' ->
  E <> E' ->
  getRequire E <> getRequire E'.
Proof.
  intros HE HE' Hne Heq. apply Hne.
  rewrite <- (quoted_texts_getRequire E HE),
          <- (quoted_texts_getRequire E' HE').
  now rewrite Heq.
Qed.

(** ** The further facts on concrete inputs *)

Lemma normalizeEsbuildOptions_idempotent_witness :
  bo_external
    (normalizeEsbuildOptions
       (@build_request posix MemStore engine_raises neutral_options))
    = Some [] /\
  bo_bundle
    (normalizeEsbuildOptions
       (@build_request posix MemStore engine_raises neutral_options))
    = Some true.
Proof.
  destruct (normalizeEsbuildOptions_idempotent
              (@build_request posix MemStore engine_raises neutral_options))
    as (_ & Hext & _ & _ & _ & _ & _ & _ & Hbundle).
  split; [apply Hext; reflexivity | exact Hbundle].
Defined.

Lemma build_without_memfs_witness :
  adapter_calls
    (calls (sample_build (engine_gives (handle_of 1 [out_a]))
              (fresh_world (sample_options returning_hooks false)))) = [] /\
  bo_write
    (@full_request posix MemStore (engine_gives (handle_of 1 [out_a]))
       (this (fresh_world (sample_options returning_hooks false))))
    = Some true.
Proof.
  destruct (@build_without_memfs posix MemStore false
              (engine_gives (handle_of 1 [out_a]))
              (fresh_world (sample_options returning_hooks false)) eq_refl)
    as (Hwrite & Hcalls).
  split; [exact Hcalls | exact Hwrite].
Defined.

Lemma request_for_other_platform_witness :
  bo_inject
    (normalizeEsbuildOptions
       (@build_request posix MemStore engine_raises neutral_options))
    = Some ["/shim/node.js"] /\
  bo_banner
    (normalizeEsbuildOptions
       (@build_request posix MemStore engine_raises neutral_options))
    = Some (getRequire []).
Proof.
  destruct (@request_for_other_platform posix MemStore engine_raises
              neutral_options [] "bundler")
    as (Hbanner & _ & Hinject & _);
    [discriminate | discriminate | reflexivity | reflexivity |].
  split; [|exact Hbanner].
  etransitivity; [exact Hinject | vm_compute; reflexivity].
Defined.

Lemma build_start_hook_raises_witness :
  calls (sample_build (engine_gives (handle_of 1 []))
           (fresh_world (sample_options raising_start_hooks false)))
    = [CallHookStart] /\
  firstBuildPass
    (this (world (sample_build (engine_gives (handle_of 1 []))
                    (fresh_world (sample_options raising_start_hooks false)))))
    = false.
Proof.
  destruct (@build_start_hook_raises posix MemStore false
              (engine_gives (handle_of 1 []))
              (fresh_world (sample_options raising_start_hooks false))
              raising_start_hooks (fun _ => Throw "start failed")
              "start failed" eq_refl eq_refl eq_refl)
    as (_ & Hcalls & Hworld & _).
  split; [exact Hcalls|].
  unfold sample_build. rewrite Hworld. reflexivity.
Defined.

Lemma build_write_failure_witness :
  completion
    (sample_build (engine_gives (handle_of 1 [out_a; nested_c]))
       (fresh_world (sample_options returning_hooks true)))
    = Throw "ENOENT" /\
  result
    (this (world (sample_build (engine_gives (handle_of 1 [out_a; nested_c]))
                    (fresh_world (sample_options returning_hooks true)))))
    = Some (handle_of 1 [out_a; nested_c]) /\
  files
    (store (world (sample_build
                     (engine_gives (handle_of 1 [out_a; nested_c]))
                     (fresh_world (sample_options returning_hooks true)))))
    !! "/out/a.js" = Some "...".
Proof.
  destruct (@build_write_failure posix MemStore false
              (engine_gives (handle_of 1 [out_a; nested_c]))
              (fresh_world (sample_options returning_hooks true))
              (Some (handle_of 1 [out_a; nested_c])) "ENOENT"
              ltac:(vm_compute; reflexivity)
              ltac:(vm_compute; reflexivity)
              ltac:(vm_compute; reflexivity))
    as (Hc & _ & Hr & _ & Hstore).
  split; [exact Hc|]. split; [exact Hr|].
  unfold sample_build. rewrite Hstore. vm_compute. reflexivity.
Defined.

Lemma build_then_rebuild_witness :
  In (CallRebuild (handle_of 1 []))
     (calls (sample_build engine_raises
               (world (sample_build (engine_gives (handle_of 1 []))
                         (fresh_world
                            (sample_options returning_hooks false)))))).
Proof.
  apply (@build_then_rebuild posix MemStore false
           (engine_gives (handle_of 1 []))
           (fresh_world (sample_options returning_hooks false))
           (handle_of 1 [])
           ltac:(vm_compute; reflexivity) eq_refl eq_refl eq_refl
           false engine_raises).
Defined.

Lemma build_on_handle_without_rebuild_witness :
  calls (sample_build (engine_gives (handle_of 1 []))
           (ready_world (sample_options returning_hooks true)
              no_rebuild_handle))
    = [CallHookStart; CallHookDone None] /\
  result
    (this (world (sample_build (engine_gives (handle_of 1 []))
                    (ready_world (sample_options returning_hooks true)
                       no_rebuild_handle))))
    = None.
Proof.
  destruct (@build_on_handle_without_rebuild posix MemStore false
              (engine_gives (handle_of 1 []))
              (ready_world (sample_options returning_hooks true)
                 no_rebuild_handle)
              no_rebuild_handle
              ltac:(vm_compute; reflexivity) eq_refl eq_refl)
    as (Hcalls & _ & Hres & _).
  split; [exact Hcalls | exact Hres].
Defined.

Lemma watcher_event_never_raises_witness :
  last (calls (@watcher_event posix MemStore installed_debounce 0%Z
                 engine_raises
                 (ready_world (sample_options returning_hooks false)
                    (handle_of 1 []))))
    = Some (UnhandledRejection "build failed") /\
  completion (@watcher_event posix MemStore installed_debounce 0%Z
                engine_raises
                (ready_world (sample_options returning_hooks false)
                   (handle_of 1 [])))
    = Normal true.
Proof.
  destruct (@watcher_event_never_raises posix MemStore installed_debounce
              0%Z engine_raises
              (ready_world (sample_options returning_hooks false)
                 (handle_of 1 [])))
    as [_ Hraise].
  destruct (Hraise {| watched := []; on_all := {| timeout := None |} |}
              "build failed" eq_refl eq_refl eq_refl
              ltac:(vm_compute; reflexivity) eq_refl)
    as (Hlast & _ & _).
  split; [exact Hlast | vm_compute; reflexivity].
Defined.

Lemma options_and_flag_are_kept_witness :
  firstBuildPass
    (this (@after_ops posix MemStore installed_debounce sample_ops
             (ready_world (sample_options returning_hooks true)
                (handle_of 1 []))))
    = true /\
  options
    (this (@after_ops posix MemStore installed_debounce sample_ops
             (ready_world (sample_options returning_hooks true)
                (handle_of 1 []))))
    = options (this (ready_world (sample_options returning_hooks true)
                       (handle_of 1 []))).
Proof.
  destruct (@options_and_flag_are_kept posix MemStore installed_debounce
              sample_ops
              (ready_world (sample_options returning_hooks true)
                 (handle_of 1 [])))
    as [Ho Hf].
  split; [apply Hf; reflexivity | exact Ho].
Defined.

Lemma unwatched_instance_witness :
  @calls_of_ops posix MemStore installed_debounce sample_ops
    (fresh_world minimal_options)
  = @calls_of_ops posix MemStore installed_debounce
      [OpBuild false engine_raises;
       OpBuild true (engine_gives (handle_of 1 []))]
      (fresh_world minimal_options).
Proof.
  destruct (@unwatched_instance posix MemStore installed_debounce
              engine_raises minimal_options root_store sample_ops eq_refl)
    as (_ & _ & Hcalls).
  exact Hcalls.
Defined.

Lemma footer_merge_no_op_witness :
  footer_merge (VObject 1) (VObject 1) footer_heap
    = (Normal (VObject 1), footer_heap) /\
  footer_merge (VObject 1) VNull footer_heap
    = (Normal (VObject 1), footer_heap).
Proof.
  destruct (footer_merge_no_op footer_heap) as [Hsame Hother].
  split.
  - apply (Hsame 1 module_exports_object). reflexivity.
  - apply Hother. discriminate.
Defined.

Lemma footer_merge_not_extensible_witness :
  footer_merge (VObject 1) (VObject 2) frozen_exports_heap
    = (Throw "TypeError: object is not extensible", frozen_exports_heap).
Proof.
  etransitivity.
  - apply (footer_merge_not_extensible frozen_exports_heap 1 2
             {| own := own module_exports_object; extensible := false;
                prototype := None |}
             exports_object eq_refl eq_refl eq_refl).
  - vm_compute. reflexivity.
Defined.

Lemma footer_merge_idempotent_witness :
  footer_merge (VObject 1) (VObject 2)
    (snd (footer_merge (VObject 1) (VObject 2) footer_heap))
  = (Normal (VObject 1), snd (footer_merge (VObject 1) (VObject 2) footer_heap))
  /\
  has_own (snd (footer_merge (VObject 1) (VObject 2) footer_heap)) 1 "b"
    = true.
Proof.
  destruct (footer_merge_idempotent footer_heap 1 2 module_exports_object
              exports_object eq_refl eq_refl eq_refl) as [Hagain Hown].
  split; [exact Hagain | apply Hown; reflexivity].
Defined.

Lemma getRequire_injective_witness :
  getRequire ["left-pad"; "react"] <> getRequire ["react"; "left-pad"].
Proof.
  apply (getRequire_injective ["left-pad"; "react"] ["react"; "left-pad"]);
    [repeat constructor | repeat constructor | discriminate].
Defined.

(** ** The gate of the watch callback *)

Section WatchGate.
Context `{Host} {S : Type}.
Implicit Types (w : World S) (env : Env S) (c : Compiler S).

(** C3, as amended: while [firstBuildPass] is false the watch
    callback, however it is debounced, calls [build] for none of the
    events it receives and makes no outside call.  A first [build]
    whose [start] hook returns leaves [firstBuildPass] true whether its
    engine call succeeded or raised, and an event that then passes the
    debouncing runs [build]: its outside calls and the world it leaves
    are those of that [build], beginning with the [start] hook and the
    engine call.  A [build] whose [start] hook raises leaves the
    instance, and so the flag, as it was. *)
Theorem C3_watch_gate watch env w :
  (forall policy events,
     firstBuildPass (this w) = false ->
     completion (watcher_events policy events w) = Normal 0 /\
     calls (watcher_events policy events w) = [] /\
     firstBuildPass (this (world (watcher_events policy events w))) = false) /\
  (start_returns (this w) ->
   firstBuildPass (this (world (build watch env w))) = true /\
   (forall e, engine_reply env (this w) = Throw e ->
      completion (build watch env w) = Throw e /\
      firstBuildPass (this (world (build watch env w))) = true) /\
   (forall policy now env' fw,
      watcher (this w) = Some fw ->
      fst (policy now (on_all fw)) = true ->
      let w' := world (build watch env w) in
      let w1 := {| this := with_watcher
                             (Some {| watched := watched fw;
                                      on_all := snd (policy now (on_all fw)) |})
                             (this w');
                   store := store w' |} in
      watcher_event policy now env' w' =
        {| completion := Normal true;
           world := world (build false env' w1);
           calls := calls (detached (build false env') w1) |} /\
      exists rest,
        calls (watcher_event policy now env' w') =
          start_calls (this w) ++ engine_calls env' (this w') ++ rest)) /\
  (forall h f e,
     hooks (options (this w)) = Some h ->
     start h = Some f ->
     f tt = Throw e ->
     completion (build watch env w) = Throw e /\
     world (build watch env w) = w).
Proof.
  split; [|split].
  - intros policy events Hf.
    destruct (watcher_events_gated policy events w Hf) as (? & ? & ? & _).
    repeat split; assumption.
  - intros Hs. split; [now apply build_sets_firstBuildPass|]. split.
    + intros e He. split; [|now apply build_sets_firstBuildPass].
      now rewrite build_run, He.
    + intros policy now env' fw Hw Hp w' w1.
      pose proof (build_sets_firstBuildPass watch env w Hs) as Hf.
      destruct (build_keeps watch env w) as [Ho Hk].
      assert (Hrun : watcher_event policy now env' w' =
                {| completion := Normal true;
                   world := world (build false env' w1);
                   calls := calls (detached (build false env') w1) |}).
      { rewrite watcher_event_run. fold w'. subst w'.
        rewrite Hk, Hw. cbv zeta. now rewrite Hp, Hf. }
      split; [exact Hrun|]. rewrite Hrun. cbn [calls].
      assert (Hs1 : start_returns (this w1)).
      { eapply start_returns_options; [|exact Hs]. exact Ho. }
      destruct (build_calls_shape false env' w1 Hs1) as (rest & Hc & _).
      assert (Hst : start_calls (this w1) = start_calls (this w)).
      { unfold start_calls. cbn [this options with_watcher w1].
        subst w'. now rewrite Ho. }
      unfold detached. rewrite Hc, Hst.
      change (engine_calls env' (this w1)) with (engine_calls env' (this w')).
      destruct (completion (build false env' w1)); cbn [calls].
      * eauto.
      * eexists. rewrite <- !app_assoc. reflexivity.
  - intros h f e Hh Hf He.
    now rewrite (build_start_throws _ _ _ _ _ _ Hh Hf He).
Qed.

End WatchGate.

(** C3, as stated, fails for a first [build] that fails in its [start]
    hook: the hook is called before the [try] block, so the [finally]
    block does not run, [firstBuildPass] is still false when [build]
    has completed, and the watcher's events go on triggering nothing. *)
Lemma C3_start_hook_failure_keeps_gate_closed :
  completion
    (sample_build (engine_gives (handle_of 1 []))
       (fresh_world (sample_options raising_start_hooks false)))
    = Throw "start failed" /\
  firstBuildPass
    (this (world (sample_build (engine_gives (handle_of 1 []))
                    (fresh_world (sample_options raising_start_hooks false)))))
    = false /\
  completion
    (@watcher_events posix MemStore installed_debounce
       [(0%Z, engine_gives (handle_of 1 []));
        (700%Z, engine_gives (handle_of 1 []))]
       (world (sample_build (engine_gives (handle_of 1 []))
                 (fresh_world (sample_options raising_start_hooks false)))))
    = Normal 0 /\
  calls
    (@watcher_events posix MemStore installed_debounce
       [(0%Z, engine_gives (handle_of 1 []));
        (700%Z, engine_gives (handle_of 1 []))]
       (world (sample_build (engine_gives (handle_of 1 []))
                 (fresh_world (sample_options raising_start_hooks false)))))
    = [].
Proof. repeat split; vm_compute; reflexivity. Qed.

Lemma C3_watch_gate_witness :
  completion
    (@watcher_events posix MemStore installed_debounce
       [(0%Z, engine_gives (handle_of 1 []));
        (700%Z, engine_gives (handle_of 1 []))]
       (fresh_world (sample_options returning_hooks false))) = Normal 0 /\
  firstBuildPass
    (this (world (sample_build engine_raises
                    (fresh_world (sample_options returning_hooks false)))))
    = true /\
  calls
    (@watcher_event posix MemStore installed_debounce 0%Z
       (engine_gives (handle_of 1 []))
       (world (sample_build engine_raises
                 (fresh_world (sample_options returning_hooks false)))))
    = [CallHookStart;
       CallEngineBuild
         (@full_request posix MemStore (engine_gives (handle_of 1 []))
            (this (fresh_world (sample_options returning_hooks false))));
       CallHookDone (Some (handle_of 1 []))] /\
  world
    (sample_build (engine_gives (handle_of 1 []))
       (fresh_world (sample_options raising_start_hooks false)))
    = fresh_world (sample_options raising_start_hooks false).
Proof.
  destruct (@C3_watch_gate posix MemStore false engine_raises
              (fresh_world (sample_options returning_hooks false)))
    as (Hgate & Hbuilt & _).
  destruct (Hbuilt ltac:(vm_compute; reflexivity)) as (Hflag & _ & Hevent).
  destruct (Hevent installed_debounce 0%Z (engine_gives (handle_of 1 []))
              {| watched := []; on_all := {| timeout := None |} |}
              eq_refl eq_refl) as (Hrun & _).
  destruct (@C3_watch_gate posix MemStore false
              (engine_gives (handle_of 1 []))
              (fresh_world (sample_options raising_start_hooks false)))
    as (_ & _ & Hraise).
  split; [apply Hgate; reflexivity|]. split; [exact Hflag|]. split.
  - unfold sample_build. rewrite Hrun. vm_compute. reflexivity.
  - apply (Hraise raising_start_hooks (fun _ => Throw "start failed")
             "start failed" eq_refl eq_refl eq_refl).
Defined.
